(** * Frame sampling, request construction and cost reporting
    of [video-understanding.ipynb]

    The notebook runs three code cells in sequence:
    - the frame sampler (opens the video, derives [frame_skip], reads every
      frame, keeps every [frame_skip]-th one as a base64 JPEG, releases the
      handle);
    - the request builder (one user message: a text part followed by one
      [image_url] part per kept frame);
    - the cost reporter (token counts to dollar amounts, and a cost per
      frame).

    Numbers.  Python [int] is [Z].  In the sampler, the request and the cost
    reporter Python [float] values are modelled by the rational they denote
    ([Q]): [//] is the floor of the exact quotient, [/] the exact quotient,
    and both raise [ZeroDivisionError] on a zero divisor.  Line 84 is
    modelled a second time on binary64 values, with Python's own floor
    division and [int()], in module [Float64]; module [Binary64] replays the
    worked cost example in binary64. *)

From Stdlib Require Import ZArith NArith QArith Qround Qpower.
From Stdlib Require Import Lia Lqa Bool Arith.
From Stdlib Require Import List Sorted.
From Stdlib Require Import String Ascii.
From Stdlib Require Import DecimalString DecimalN DecimalPos.
From Stdlib Require Import Uint63 PrimFloat SpecFloat.
From Stdlib Require FloatOps.
From Stdlib.Strings Require Import Byte.
Import ListNotations.

Set Implicit Arguments.

(** ** Exceptions and results *)

(** The Python exceptions the three cells can raise on their own.
    [NonTermination] is not one of them: it marks a loop of the model that
    used up its iteration bound, and is shown never to surface. *)
Inductive exception : Type :=
| ZeroDivisionError
| ValueError
| OverflowError
| cv2_error
| NonTermination.

(** Outcome of evaluating a Python expression. *)
Inductive result (A : Type) : Type :=
| Ok (a : A)
| Raise (e : exception).

Arguments Ok {A} a.
Arguments Raise {A} e.

Definition is_ok {A : Type} (r : result A) : bool :=
  match r with Ok _ => true | Raise _ => false end.

(** ** Python arithmetic used by the notebook *)

Module Py.

Local Open Scope Q_scope.

(** [x // y] on floats. *)
Definition floordiv (x y : Q) : result Q :=
  if Qeq_bool y 0 then Raise ZeroDivisionError
  else Ok (inject_Z (Qfloor (x / y))).

(** [x / y] (true division). *)
Definition truediv (x y : Q) : result Q :=
  if Qeq_bool y 0 then Raise ZeroDivisionError
  else Ok (x / y).

(** [int(x)]: truncation toward zero. *)
Definition int (x : Q) : Z :=
  if Qle_bool 0 x then Qfloor x else Qceiling x.

(** [max(a, b)] on ints. *)
Definition max (a b : Z) : Z := Z.max a b.

End Py.

(** ** Cell 1, line 84: the stride *)

(** [frame_skip = max(1, int(fps // target_fps))] *)
Definition frame_skip (fps target_fps : Q) : result Z :=
  match Py.floordiv fps target_fps with
  | Raise e => Raise e
  | Ok q => Ok (Py.max 1 (Py.int q))
  end.

(** ** Line 84 on binary64 values

    [video.get] returns a C double and [target_fps] is converted to one.
    Values are [spec_float]s with the operations of the standard library's
    IEEE 754 specification; [fmod], [floor], Python's [//] (CPython's
    [float_floor_div]) and [int()] are written out on them. *)

Module Float64.

Definition prec : Z := 53.
Definition emax : Z := 1024.

Definition add : spec_float -> spec_float -> spec_float := SFadd prec emax.
Definition sub : spec_float -> spec_float -> spec_float := SFsub prec emax.
Definition div : spec_float -> spec_float -> spec_float := SFdiv prec emax.
Definition ltb : spec_float -> spec_float -> bool := SFltb.
Definition eqb : spec_float -> spec_float -> bool := SFeqb.

Definition zero : spec_float := S754_zero false.
Definition one : spec_float := S754_finite false 4503599627370496 (-52).
Definition half : spec_float := S754_finite false 4503599627370496 (-53).

(** The truth value C gives a double: [x != 0.0]. *)
Definition nonzero (x : spec_float) : bool := negb (eqb x zero).

Definition signbit (x : spec_float) : bool :=
  match x with
  | S754_zero s | S754_infinity s | S754_finite s _ _ => s
  | S754_nan => false
  end.

(** [copysign(0.0, y)] *)
Definition copysign_zero (y : spec_float) : spec_float :=
  S754_zero (signbit y).

(** The integers [X] and [Y] with [|x| = X * 2^e] and [|y| = Y * 2^e],
    [e] the smaller exponent. *)
Definition aligned (m : positive) (e e0 : Z) : Z := Z.pos m * 2 ^ (e - e0).

(** C's [fmod(x, y)]: the exact remainder of [x / y] truncated, with the
    sign of [x]. *)
Definition fmod (x y : spec_float) : spec_float :=
  match x, y with
  | S754_nan, _ | _, S754_nan => S754_nan
  | S754_infinity _, _ => S754_nan
  | _, S754_zero _ => S754_nan
  | S754_zero _, _ => x
  | S754_finite _ _ _, S754_infinity _ => x
  | S754_finite sx mx ex, S754_finite _ my ey =>
      let e := Z.min ex ey in
      let X := aligned mx ex e in
      let Y := aligned my ey e in
      if (X <? Y)%Z then x
      else
        let r := (X mod Y)%Z in
        if (r =? 0)%Z then S754_zero sx
        else binary_normalize prec emax (cond_Zopp sx r) e false
  end.

(** C's [floor(x)]. *)
Definition floor (x : spec_float) : spec_float :=
  match x with
  | S754_finite s m e =>
      if (0 <=? e)%Z then x
      else
        let d := (2 ^ (- e))%Z in
        if (Z.pos m mod d =? 0)%Z then x
        else
          binary_normalize prec emax
            (if s then (- (Z.pos m / d) - 1)%Z else (Z.pos m / d)%Z) 0 s
  | _ => x
  end.

(** Python's [vx // wx] on floats (CPython's [float_floor_div]). *)
Definition floordiv (vx wx : spec_float) : result spec_float :=
  if eqb wx zero then Raise ZeroDivisionError
  else
    let md := fmod vx wx in
    let q := div (sub vx md) wx in
    let q :=
      if nonzero md then
        if negb (Bool.eqb (ltb wx zero) (ltb md zero)) then sub q one
        else q
      else q in
    if nonzero q then
      let fl := floor q in
      if ltb half (sub q fl) then Ok (add fl one)
      else Ok fl
    else Ok (copysign_zero (div vx wx)).

(** Python's [int(x)] on a float. *)
Definition int (x : spec_float) : result Z :=
  match x with
  | S754_nan => Raise ValueError
  | S754_infinity _ => Raise OverflowError
  | S754_zero _ => Ok 0%Z
  | S754_finite s m e =>
      Ok (cond_Zopp s
            (if (0 <=? e)%Z then Z.pos m * 2 ^ e
             else Z.pos m / 2 ^ (- e))%Z)
  end.

(** [frame_skip = max(1, int(fps // target_fps))] *)
Definition frame_skip (fps target_fps : spec_float) : result Z :=
  match floordiv fps target_fps with
  | Raise e => Raise e
  | Ok q =>
      match int q with
      | Raise e => Raise e
      | Ok n => Ok (Z.max 1 n)
      end
  end.


Definition is_finite (x : spec_float) : bool :=
  match x with
  | S754_zero _ | S754_finite _ _ _ => true
  | _ => false
  end.

(** The rational a finite binary64 value denotes. *)
Definition to_Q (x : spec_float) : Q :=
  match x with
  | S754_finite s m e => inject_Z (cond_Zopp s (Z.pos m)) * Qpower 2 e
  | _ => 0
  end.


(** The doubles written [30.0], [29.97], [0.1], [0.5], [2.0], [3.0] and
    [1e17], and the smallest positive double. *)
Definition f30 : spec_float := S754_finite false 8444249301319680 (-48).
Definition f2997 : spec_float := S754_finite false 8435805052018360 (-48).
Definition f0_1 : spec_float := S754_finite false 7205759403792794 (-56).
Definition f0_5 : spec_float := S754_finite false 4503599627370496 (-53).
Definition f2 : spec_float := S754_finite false 4503599627370496 (-51).
Definition f3 : spec_float := S754_finite false 6755399441055744 (-51).
Definition f1e17 : spec_float := S754_finite false 6250000000000000 4.
Definition f_min_subnormal : spec_float := S754_finite false 1 (-1074).

End Float64.

(** ** Base64 (RFC 4648, standard alphabet, padded)

    [base64.b64encode] is Python's; the notebook only encodes.  The decoder
    is the RFC 4648 inverse, which the round-trip property refers to. *)

Module Base64.

Local Open Scope N_scope.

Definition alphabet : string :=
  "ABCDEFGHIJKLMNOPQRSTUVWXYZabcdefghijklmnopqrstuvwxyz0123456789+/".

Definition pad : ascii := "="%char.

(** The character of a 6-bit group. *)
Definition b64char (i : N) : ascii :=
  match String.get (N.to_nat i) alphabet with
  | Some c => c
  | None => pad
  end.

Fixpoint index_from (i : N) (s : string) (c : ascii) : option N :=
  match s with
  | EmptyString => None
  | String d r => if Ascii.eqb c d then Some i else index_from (N.succ i) r c
  end.

(** The 6-bit group of a character of the alphabet. *)
Definition b64index (c : ascii) : option N := index_from 0 alphabet c.

(** Decidable check that position [n] of the alphabet is found again by
    [b64index] and is not the padding character. *)
Definition alphabet_ok (n : nat) : bool :=
  match b64index (b64char (N.of_nat n)) with
  | Some j =>
      N.eqb j (N.of_nat n) && negb (Ascii.eqb (b64char (N.of_nat n)) pad)
  | None => false
  end.

(** A 24-bit group from three octets, and its four 6-bit groups. *)
Definition group24 (x y z : N) : N := x * 65536 + y * 256 + z.

Definition sextet (k : nat) (n : N) : N :=
  match k with
  | 0%nat => n / 262144
  | 1%nat => (n / 4096) mod 64
  | 2%nat => (n / 64) mod 64
  | _ => n mod 64
  end.

Definition str4 (c1 c2 c3 c4 : ascii) (rest : string) : string :=
  String c1 (String c2 (String c3 (String c4 rest))).

Fixpoint b64encode (bs : list byte) : string :=
  match bs with
  | [] => EmptyString
  | [a] =>
      let n := group24 (Byte.to_N a) 0 0 in
      str4 (b64char (sextet 0 n)) (b64char (sextet 1 n)) pad pad EmptyString
  | [a; b] =>
      let n := group24 (Byte.to_N a) (Byte.to_N b) 0 in
      str4 (b64char (sextet 0 n)) (b64char (sextet 1 n))
           (b64char (sextet 2 n)) pad EmptyString
  | a :: b :: c :: rest =>
      let n := group24 (Byte.to_N a) (Byte.to_N b) (Byte.to_N c) in
      str4 (b64char (sextet 0 n)) (b64char (sextet 1 n))
           (b64char (sextet 2 n)) (b64char (sextet 3 n)) (b64encode rest)
  end.

Definition group_of_sextets (s1 s2 s3 s4 : N) : N :=
  s1 * 262144 + s2 * 4096 + s3 * 64 + s4.

Definition octet (k : nat) (n : N) : option byte :=
  match k with
  | 0%nat => Byte.of_N (n / 65536)
  | 1%nat => Byte.of_N ((n / 256) mod 256)
  | _ => Byte.of_N (n mod 256)
  end.

Definition cons_opt (b : option byte) (l : option (list byte))
  : option (list byte) :=
  match b, l with
  | Some x, Some xs => Some (x :: xs)
  | _, _ => None
  end.

Fixpoint b64decode (s : string) : option (list byte) :=
  match s with
  | EmptyString => Some []
  | String c1 (String c2 (String c3 (String c4 rest))) =>
      match b64index c1, b64index c2 with
      | Some s1, Some s2 =>
          if Ascii.eqb c4 pad then
            match rest with
            | EmptyString =>
                if Ascii.eqb c3 pad then
                  cons_opt (octet 0 (group_of_sextets s1 s2 0 0)) (Some [])
                else
                  match b64index c3 with
                  | Some s3 =>
                      let n := group_of_sextets s1 s2 s3 0 in
                      cons_opt (octet 0 n) (cons_opt (octet 1 n) (Some []))
                  | None => None
                  end
            | String _ _ => None
            end
          else
            match b64index c3, b64index c4 with
            | Some s3, Some s4 =>
                let n := group_of_sextets s1 s2 s3 s4 in
                cons_opt (octet 0 n)
                  (cons_opt (octet 1 n)
                     (cons_opt (octet 2 n) (b64decode rest)))
            | _, _ => None
            end
      | _, _ => None
      end
  | _ => None
  end.

End Base64.

(** ** Cell 1: the frame sampler *)

Section Sampler.

(** A decoded raw frame, and [cv2.imencode(".jpg", frame)]: the JPEG codec
    is OpenCV's; it returns the compressed buffer, or [None] where it raises
    [cv2.error]. *)
Variable Mat : Type.
Variable imencode : Mat -> option (list byte).

(** What the file on disk holds. *)
Record VideoFile : Type := mkVideoFile {
  file_fps : Q;
  file_frames : list Mat
}.

(** The [cv2.VideoCapture] object; [releases] counts the calls of
    [release()]. *)
Record VideoCapture : Type := mkVideoCapture {
  opened : bool;
  CAP_PROP_FPS : Q;
  frames_left : list Mat;
  releases : nat
}.

(** [cv2.VideoCapture(path)]: a file that cannot be opened gives a handle
    that is not opened, reports rate 0 and has no frame. *)
Definition VideoCapture_new (file : option VideoFile) : VideoCapture :=
  match file with
  | Some f => mkVideoCapture true (file_fps f) (file_frames f) 0
  | None => mkVideoCapture false 0 [] 0
  end.

(** Computations on the handle that may raise.  A raised exception leaves
    the handle in the state it had when the exception was raised. *)
Definition M (A : Type) : Type := VideoCapture -> result A * VideoCapture.

Definition ret {A : Type} (a : A) : M A := fun v => (Ok a, v).

Definition bind {A B : Type} (c : M A) (k : A -> M B) : M B :=
  fun v =>
    match c v with
    | (Ok a, v') => k a v'
    | (Raise e, v') => (Raise e, v')
    end.

Definition lift {A : Type} (r : result A) : M A := fun v => (r, v).

Notation "x <- c ;; k" := (bind c (fun x => k))
  (at level 61, c at next level, right associativity).

(** [video.get(cv2.CAP_PROP_FPS)] *)
Definition video_get_fps : M Q :=
  fun v => (Ok (if opened v then CAP_PROP_FPS v else 0%Q), v).

(** [video.isOpened()] *)
Definition video_isOpened : M bool := fun v => (Ok (opened v), v).

(** [video.read()]: [Some frame] stands for [(True, frame)], [None] for
    [(False, None)] (end of stream, or a frame that could not be read). *)
Definition video_read : M (option Mat) :=
  fun v =>
    if opened v then
      match frames_left v with
      | [] => (Ok None, v)
      | frame :: rest =>
          (Ok (Some frame),
           mkVideoCapture (opened v) (CAP_PROP_FPS v) rest (releases v))
      end
    else (Ok None, v).

(** [video.release()] *)
Definition video_release : M unit :=
  fun v =>
    (Ok tt,
     mkVideoCapture false (CAP_PROP_FPS v) (frames_left v) (S (releases v))).

(** Lines 96-97: [base64.b64encode(buffer).decode("utf-8")] of the JPEG
    buffer of a frame. *)
Definition encode_frame (frame : Mat) : result string :=
  match imencode frame with
  | Some buffer => Ok (Base64.b64encode buffer)
  | None => Raise cv2_error
  end.

(** Lines 89-99: the [while] loop.  [fuel] bounds the number of
    iterations; running out of it is reported as [NonTermination]. *)
Fixpoint while_loop (fuel : nat) (stride : Z)
    (base64Frames : list string) (frame_count : Z)
  : M (list string * Z) :=
  match fuel with
  | O => lift (Raise NonTermination)
  | S fuel' =>
      is_open <- video_isOpened ;;
      if negb is_open then ret (base64Frames, frame_count)
      else
        r <- video_read ;;
        match r with
        | None => ret (base64Frames, frame_count)
        | Some frame =>
            if (frame_count mod stride =? 0)%Z then
              b64 <- lift (encode_frame frame) ;;
              while_loop fuel' stride (base64Frames ++ [b64])
                         (frame_count + 1)
            else
              while_loop fuel' stride base64Frames (frame_count + 1)
        end
  end.

(** Every iteration that does not leave the loop consumes a frame, so one
    more iteration than there are frames left is enough. *)
Definition enough_fuel : M nat :=
  fun v => (Ok (S (List.length (frames_left v))), v).

(** Lines 78-101: the whole cell, run on the handle. *)
Definition sampler (target_fps : Q) : M (list string * Z) :=
  fps <- video_get_fps ;;
  stride <- lift (frame_skip fps target_fps) ;;
  fuel <- enough_fuel ;;
  r <- while_loop fuel stride [] 0%Z ;;
  _ <- video_release ;;
  ret r.

Definition extract_frames (file : option VideoFile) (target_fps : Q)
  : result (list string * Z) * VideoCapture :=
  sampler target_fps (VideoCapture_new file).

(** The strings the cell leaves in [base64Frames]. *)
Definition base64Frames_of (file : option VideoFile) (target_fps : Q)
  : result (list string) :=
  match fst (extract_frames file target_fps) with
  | Ok (frames, _) => Ok frames
  | Raise e => Raise e
  end.

End Sampler.

Arguments mkVideoFile {Mat} _ _.
Arguments VideoCapture_new {Mat} _.

(** ** Cell 2: the request builder *)

(** The values the notebook stores under the key ["detail"]: a Python [str],
    or a Python [set] of them (its elements, without order). *)
Inductive value : Type :=
| Str (s : string)
| SetOf (elems : list string).

(** The dict under ["image_url"]. *)
Record ImageUrl : Type := mkImageUrl {
  url : string;
  detail : value
}.

(** One element of ["content"]: ["type": "text"] or ["type": "image_url"]. *)
Inductive part : Type :=
| Text (text : string)
| Image_url (image_url : ImageUrl).

Record message : Type := mkMessage {
  role : string;
  content : list part
}.

Definition instruction : string :=
  "These are frames from a video. Please describe what happens in the video.".

Definition data_uri_prefix : string := "data:image/jpeg;base64,".

(** Line 159: [f"data:image/jpeg;base64,{frame}"] *)
Definition data_uri (frame : string) : string :=
  (data_uri_prefix ++ frame)%string.

(** Lines 156-162: the dict built for one frame; line 160 writes
    ["detail": {detail}], a set display around the variable. *)
Definition image_part (detail : string) (frame : string) : part :=
  Image_url (mkImageUrl (data_uri frame) (SetOf [detail])).

(** Lines 147-167: [messages]. *)
Definition messages (detail : string) (base64Frames : list string)
  : list message :=
  [ mkMessage "user"
      (Text instruction :: map (image_part detail) base64Frames) ].

(** The image references of a request, in content order. *)
Definition image_refs_of_content (c : list part) : list ImageUrl :=
  flat_map (fun p => match p with
                     | Image_url i => [i]
                     | Text _ => []
                     end) c.

Definition image_refs (ms : list message) : list ImageUrl :=
  flat_map (fun m => image_refs_of_content (content m)) ms.


(** Reading a data URI back: drop the prefix, decode the rest. *)
Fixpoint strip_prefix (p s : string) : option string :=
  match p with
  | EmptyString => Some s
  | String a p' =>
      match s with
      | EmptyString => None
      | String b s' => if Ascii.eqb a b then strip_prefix p' s' else None
      end
  end.

Definition decode_data_uri (u : string) : option (list byte) :=
  match strip_prefix data_uri_prefix u with
  | Some b64 => Base64.b64decode b64
  | None => None
  end.

(** ** Cell 3: the cost reporter *)

Record CostBreakdown : Type := mkCostBreakdown {
  input_cost : Q;
  output_cost : Q;
  total_cost : Q;
  cost_per_frame : Q
}.

(** Dollars per million tokens (the literals of lines 210 and 211). *)
Definition P_in : Q := 2.
Definition P_out : Q := 8.

(** Lines 207-224.  The last line divides by [len(base64Frames)]. *)
Definition cost_report (input_tokens output_tokens : Z)
    (base64Frames : list string) : result CostBreakdown :=
  match Py.truediv (inject_Z input_tokens) 1000000 with
  | Raise e => Raise e
  | Ok i =>
      let input_cost := (i * P_in)%Q in
      match Py.truediv (inject_Z output_tokens) 1000000 with
      | Raise e => Raise e
      | Ok o =>
          let output_cost := (o * P_out)%Q in
          let total_cost := (input_cost + output_cost)%Q in
          match Py.truediv total_cost
                  (inject_Z (Z.of_nat (List.length base64Frames))) with
          | Raise e => Raise e
          | Ok per_frame =>
              Ok (mkCostBreakdown input_cost output_cost total_cost per_frame)
          end
      end
  end.

(** Lines 215-217: [f"{n:,}"] on an [int], the decimal digits in groups of
    three from the right. *)
Definition comma : ascii := ","%char.

(** On digits given least significant first: a comma after every third
    digit that has a digit after it. *)
Fixpoint group3 (digits : list ascii) : list ascii :=
  match digits with
  | a :: b :: c :: rest =>
      match rest with
      | [] => [a; b; c]
      | _ :: _ => a :: b :: c :: comma :: group3 rest
      end
  | _ => digits
  end.

(** [str(n)] for [n >= 0]. *)
Definition decimal (n : N) : string := NilZero.string_of_uint (N.to_uint n).

Definition format_thousands (n : Z) : string :=
  let digits := list_ascii_of_string (decimal (Z.abs_N n)) in
  let body := string_of_list_ascii (rev (group3 (rev digits))) in
  if (n <? 0)%Z then String "-" body else body.

(** Lines 214-217: the token lines the cell prints. *)
Definition token_usage (input_tokens output_tokens : Z) : list string :=
  [ "Token Usage:";
    "  Input tokens: " ++ format_thousands input_tokens;
    "  Output tokens: " ++ format_thousands output_tokens;
    "  Total tokens: " ++ format_thousands (input_tokens + output_tokens)
  ]%string.

(** Reading such a number back: drop the commas, read the digits. *)
Definition not_comma (c : ascii) : bool := negb (Ascii.eqb c comma).

Definition read_thousands (s : string) : option N :=
  option_map N.of_uint
    (NilZero.uint_of_string
       (string_of_list_ascii
          (filter not_comma (list_ascii_of_string s)))).

(** The same arithmetic in binary64, for token and frame counts below 2^53
    (where Python's int-to-float conversions are exact). *)
Module Binary64.

Definition of_int (n : Z) : PrimFloat.float :=
  PrimFloat.of_uint63 (Uint63.of_Z n).

Definition input_cost (input_tokens : Z) : PrimFloat.float :=
  PrimFloat.mul (PrimFloat.div (of_int input_tokens) (of_int 1000000))
                (of_int 2).

Definition output_cost (output_tokens : Z) : PrimFloat.float :=
  PrimFloat.mul (PrimFloat.div (of_int output_tokens) (of_int 1000000))
                (of_int 8).

Definition total_cost (input_tokens output_tokens : Z) : PrimFloat.float :=
  PrimFloat.add (input_cost input_tokens) (output_cost output_tokens).

Definition cost_per_frame (input_tokens output_tokens frames : Z)
  : PrimFloat.float :=
  PrimFloat.div (total_cost input_tokens output_tokens) (of_int frames).

End Binary64.

(** ** Vocabulary of the statements *)

(** [ceil(a / b)] *)
Definition ceil_div (a b : Z) : Z := Qceiling (inject_Z a / inject_Z b).

(** The native indices 0, stride, 2*stride, ... below [total]. *)
Definition sampled_indices (total : nat) (stride : Z) : list nat :=
  map (fun k => (k * Z.to_nat stride)%nat)
      (seq 0 (Z.to_nat (ceil_div (Z.of_nat total) stride))).

(** The elements of [l] whose position, counted from [c], is a multiple of
    [s]. *)
Fixpoint select {A : Type} (s c : nat) (l : list A) : list A :=
  match l with
  | [] => []
  | x :: r =>
      if (c mod s =? 0)%nat then x :: select s (S c) r
      else select s (S c) r
  end.

(** The frames of a source and the rate its handle reports; a source that
    cannot be opened has no frame and reports 0. *)
Definition native_frames {Mat : Type} (file : option (VideoFile Mat))
  : list Mat :=
  match file with
  | Some f => file_frames f
  | None => []
  end.

Definition reported_fps {Mat : Type} (file : option (VideoFile Mat)) : Q :=
  match file with
  | Some f => file_fps f
  | None => 0
  end.

Definition all_encodable {Mat : Type} (imencode : Mat -> option (list byte))
    (frames : list Mat) : bool :=
  forallb (fun f => is_ok (encode_frame imencode f)) frames.

(** A frame is stored as its pixel bytes; this codec refuses an empty image
    and otherwise returns the bytes (a stand-in for a JPEG encoder in
    concrete runs). *)
Definition toy_imencode (frame : list byte) : option (list byte) :=
  match frame with
  | [] => None
  | _ => Some frame
  end.

(** A five-frame source at 2 fps, for concrete runs. *)
Definition demo_frames : list (list byte) :=
  [[x01]; [x02; x03]; [x04; x05; x06]; [x07]; [x08; x09]]%byte.

Definition demo_file : option (VideoFile (list byte)) :=
  Some (mkVideoFile 2 demo_frames).

(** Thirty seconds at 30 fps: 900 frames. *)
Definition clip_30s : option (VideoFile (list byte)) :=
  Some (mkVideoFile 30 (repeat [x2a]%byte 900)).

(** A three-frame source at 1 fps whose second frame the codec refuses. *)
Definition broken_file : option (VideoFile (list byte)) :=
  Some (mkVideoFile 1 [[x01]; []; [x02]]%byte).

(** Encoding frames in order, stopping at the first one the codec
    refuses. *)
Fixpoint encode_all {Mat : Type} (imencode : Mat -> option (list byte))
    (frames : list Mat) : result (list string) :=
  match frames with
  | [] => Ok []
  | f :: r =>
      match encode_frame imencode f with
      | Raise e => Raise e
      | Ok b64 =>
          match encode_all imencode r with
          | Ok rest => Ok (b64 :: rest)
          | Raise e => Raise e
          end
      end
  end.

(** A three-frame source at 2 fps whose second frame the codec refuses. *)
Definition gap_file : option (VideoFile (list byte)) :=
  Some (mkVideoFile 2 [[x01]; []; [x02]]%byte).

(** * Proofs *)

(** ** Concrete runs of the stride *)

Example frame_skip_30_1 : frame_skip 30 1 = Ok 30%Z.
Proof. reflexivity. Qed.

Example frame_skip_half : frame_skip (2997 # 100) (1 # 2) = Ok 59%Z.
Proof. reflexivity. Qed.

Example frame_skip_fast_target : frame_skip 24 60 = Ok 1%Z.
Proof. reflexivity. Qed.

Example frame_skip_target_zero : frame_skip 30 0 = Raise ZeroDivisionError.
Proof. reflexivity. Qed.

(** ** The worked cost example in binary64 *)

#[local] Set Warnings "-inexact-float".

Example binary64_cost_example :
  PrimFloat.eqb (Binary64.input_cost 5100) 0.0102%float = true /\
  PrimFloat.eqb (Binary64.output_cost 300) 0.0024%float = true /\
  PrimFloat.eqb (Binary64.total_cost 5100 300) 0.0126%float = true /\
  PrimFloat.eqb (Binary64.cost_per_frame 5100 300 30) 0.00042%float = true.
Proof. repeat split; vm_compute; reflexivity. Qed.

(** ** Arithmetic of the stride *)

Lemma int_inject_Z (z : Z) : Py.int (inject_Z z) = z.
Proof.
  unfold Py.int.
  destruct (Qle_bool 0 (inject_Z z)).
  - apply Qfloor_Z.
  - apply Qceiling_Z.
Qed.

Lemma Qeq_bool_pos_false (y : Q) : (0 < y)%Q -> Qeq_bool y 0 = false.
Proof.
  intro Hy.
  destruct (Qeq_bool y 0) eqn:E; [|reflexivity].
  apply Qeq_bool_eq in E. rewrite E in Hy.
  exfalso. exact (Qlt_irrefl 0 Hy).
Qed.

Lemma floordiv_pos (x y : Q) :
  (0 < y)%Q -> Py.floordiv x y = Ok (inject_Z (Qfloor (x / y))).
Proof.
  intro Hy. unfold Py.floordiv. now rewrite Qeq_bool_pos_false.
Qed.

Lemma frame_skip_pos (x y : Q) :
  (0 < y)%Q -> frame_skip x y = Ok (Z.max 1 (Qfloor (x / y))).
Proof.
  intro Hy. unfold frame_skip. rewrite (floordiv_pos _ Hy).
  now rewrite int_inject_Z.
Qed.

Lemma frame_skip_raises_iff (x y : Q) :
  (exists e, frame_skip x y = Raise e) <-> (y == 0)%Q.
Proof.
  unfold frame_skip, Py.floordiv.
  destruct (Qeq_bool y 0) eqn:E.
  - split; [intros _; now apply Qeq_bool_eq | intros _; now eexists].
  - split.
    + intros [e He]. discriminate He.
    + intro H0. apply Qeq_eq_bool in H0. congruence.
Qed.


(** ** The sampling loop *)

Section SamplerProofs.

Variable Mat : Type.
Variable imencode : Mat -> option (list byte).

(** One iteration on an opened handle with a frame left. *)
Lemma while_loop_step fuel stride acc c fps f r rel :
  while_loop imencode (S fuel) stride acc c
             (mkVideoCapture true fps (f :: r) rel) =
  if (c mod stride =? 0)%Z then
    match encode_frame imencode f with
    | Ok b64 =>
        while_loop imencode fuel stride (acc ++ [b64]) (c + 1)
                   (mkVideoCapture true fps r rel)
    | Raise e => (Raise e, mkVideoCapture true fps r rel)
    end
  else
    while_loop imencode fuel stride acc (c + 1)
               (mkVideoCapture true fps r rel).
Proof.
  cbn [while_loop]. unfold bind at 1 2, video_isOpened, video_read.
  cbn [opened frames_left negb CAP_PROP_FPS releases].
  destruct (c mod stride =? 0)%Z; [|reflexivity].
  unfold bind, lift. destruct (encode_frame imencode f); reflexivity.
Qed.

(** End of stream leaves the loop. *)
Lemma while_loop_eos fuel stride acc c fps rel :
  while_loop imencode (S fuel) stride acc c (mkVideoCapture true fps [] rel) =
  (Ok (acc, c), mkVideoCapture true fps [] rel).
Proof. reflexivity. Qed.

(** A handle that is not opened never enters the loop body. *)
Lemma while_loop_closed fuel stride acc c fps l rel :
  while_loop imencode (S fuel) stride acc c (mkVideoCapture false fps l rel) =
  (Ok (acc, c), mkVideoCapture false fps l rel).
Proof. reflexivity. Qed.

Lemma mod_test_nat_Z (c s : nat) :
  (Z.of_nat c mod Z.of_nat s =? 0)%Z = (c mod s =? 0)%nat.
Proof.
  rewrite <- Nat2Z.inj_mod.
  destruct (Nat.eqb_spec (c mod s) 0) as [E|E].
  - rewrite E. reflexivity.
  - apply Z.eqb_neq. lia.
Qed.

(** The loop, when every frame it meets can be encoded: it keeps the
    encodings at the positions that are multiples of the stride, counts
    every frame and leaves the handle opened at end of stream. *)
Lemma while_loop_select (s : nat) fps rel :
  forall (frames : list Mat) (strs : list string),
    Forall2 (fun f b64 => encode_frame imencode f = Ok b64) frames strs ->
    forall fuel acc c,
      (List.length frames < fuel)%nat ->
      while_loop imencode fuel (Z.of_nat s) acc (Z.of_nat c)
                 (mkVideoCapture true fps frames rel) =
      (Ok (acc ++ select s c strs, Z.of_nat (c + List.length frames)),
       mkVideoCapture true fps [] rel).
Proof.
  induction 1 as [|f b64 frames strs Hf _ IH]; intros fuel acc c Hfuel.
  - destruct fuel as [|fuel]; [inversion Hfuel|].
    rewrite while_loop_eos. cbn [select List.length].
    now rewrite app_nil_r, Nat.add_0_r.
  - destruct fuel as [|fuel]; [inversion Hfuel|].
    cbn [List.length] in Hfuel.
    rewrite while_loop_step, mod_test_nat_Z, Hf. cbn [select].
    replace (Z.of_nat c + 1)%Z with (Z.of_nat (S c)) by lia.
    replace (c + List.length (f :: frames))%nat
      with (S c + List.length frames)%nat by (cbn [List.length]; lia).
    destruct (c mod s =? 0)%nat.
    + rewrite IH by lia. now rewrite <- app_assoc.
    + now rewrite IH by lia.
Qed.

(** Every frame encodable: the encodings exist as a list. *)
Lemma all_encodable_Forall2 (frames : list Mat) :
  all_encodable imencode frames = true ->
  exists strs,
    Forall2 (fun f b64 => encode_frame imencode f = Ok b64) frames strs.
Proof.
  induction frames as [|f r IH]; intro H.
  - exists []. constructor.
  - cbn in H. apply andb_true_iff in H. destruct H as [Hf Hr].
    destruct (IH Hr) as [strs Hstrs].
    destruct (encode_frame imencode f) as [b64|e] eqn:E; [|discriminate Hf].
    exists (b64 :: strs). now constructor.
Qed.

(** The cell on a file that opens, with a positive target rate. *)
Lemma extract_frames_opened (fps target_fps : Q) (frames : list Mat) strs :
  (0 < target_fps)%Q ->
  Forall2 (fun f b64 => encode_frame imencode f = Ok b64) frames strs ->
  let s := Z.to_nat (Z.max 1 (Qfloor (fps / target_fps))) in
  extract_frames imencode (Some (mkVideoFile fps frames)) target_fps =
  (Ok (select s 0 strs, Z.of_nat (List.length frames)),
   mkVideoCapture false fps [] 1).
Proof.
  intros Ht Hstrs s.
  unfold extract_frames, sampler, VideoCapture_new.
  cbn [file_fps file_frames].
  unfold bind at 1. cbn [video_get_fps opened CAP_PROP_FPS].
  unfold bind at 1. unfold lift at 1. rewrite (frame_skip_pos _ Ht).
  unfold bind at 1. cbn [enough_fuel frames_left].
  replace (Z.max 1 (Qfloor (fps / target_fps))) with (Z.of_nat s)
    by (unfold s; lia).
  unfold bind at 1.
  change 0%Z with (Z.of_nat 0).
  rewrite (while_loop_select s fps 0 Hstrs) by lia.
  reflexivity.
Qed.

(** The cell on a file that does not open: no frame, one release. *)
Lemma extract_frames_unopened (target_fps : Q) :
  (0 < target_fps)%Q ->
  extract_frames imencode None target_fps =
  (Ok ([], 0%Z), mkVideoCapture false 0 [] 1).
Proof.
  intro Ht.
  unfold extract_frames, sampler, VideoCapture_new.
  unfold bind at 1. cbn [video_get_fps opened CAP_PROP_FPS].
  unfold bind at 1. unfold lift at 1. rewrite (frame_skip_pos _ Ht).
  reflexivity.
Qed.

End SamplerProofs.

(** ** Which positions the loop keeps *)

(** Rounded-up division on naturals. *)
Lemma ceil_nat_exact (n s : nat) :
  (1 <= s)%nat -> (n mod s = 0)%nat ->
  ((n + s - 1) / s = n / s)%nat /\
  ((S n + s - 1) / s = S (n / s))%nat /\
  (n = n / s * s)%nat.
Proof.
  intros Hs Hr.
  pose proof (Nat.div_mod_eq n s) as E. rewrite Hr in E.
  repeat split.
  - symmetry. apply (Nat.div_unique _ _ _ (s - 1)); lia.
  - symmetry. apply (Nat.div_unique _ _ _ 0); lia.
  - lia.
Qed.

Lemma ceil_nat_inexact (n s : nat) :
  (1 <= s)%nat -> (n mod s <> 0)%nat ->
  ((S n + s - 1) / s = (n + s - 1) / s)%nat.
Proof.
  intros Hs Hr.
  pose proof (Nat.div_mod_eq n s) as E.
  pose proof (Nat.mod_upper_bound n s ltac:(lia)) as B.
  transitivity (S (n / s)).
  - symmetry. apply (Nat.div_unique _ _ _ (n mod s)); lia.
  - apply (Nat.div_unique _ _ _ (n mod s - 1)); lia.
Qed.

Lemma filter_multiples (s : nat) :
  (1 <= s)%nat ->
  forall n,
    filter (fun i => (i mod s =? 0)%nat) (seq 0 n) =
    map (fun k => (k * s)%nat) (seq 0 ((n + s - 1) / s)).
Proof.
  intros Hs. induction n as [|n IH].
  - replace ((0 + s - 1) / s)%nat with 0%nat; [reflexivity|].
    symmetry. apply Nat.div_small. lia.
  - rewrite seq_S, filter_app, IH. change (0 + n)%nat with n. cbn [filter].
    destruct (Nat.eqb_spec (n mod s) 0) as [E|E].
    + destruct (ceil_nat_exact n Hs E) as (E1 & E2 & E3).
      rewrite E2, E1, seq_S, map_app. cbn [map Nat.add]. now rewrite <- E3.
    + rewrite (ceil_nat_inexact n Hs E). apply app_nil_r.
Qed.

(** [ceil(a / b)] as an integer division. *)
Lemma ceil_div_Z (a b : Z) :
  (0 < b)%Z -> ceil_div a b = ((a + b - 1) / b)%Z.
Proof.
  intro Hb. unfold ceil_div, Qceiling.
  assert (E : (- (inject_Z a / inject_Z b) == inject_Z (- a) / inject_Z b)%Q).
  { unfold Qdiv. rewrite inject_Z_opp. ring. }
  rewrite (Qfloor_comp _ _ E), <- Zdiv_Qdiv.
  pose proof (Z.div_mod (- a) b ltac:(lia)) as D1.
  pose proof (Z.mod_pos_bound (- a) b Hb) as B1.
  pose proof (Z.div_mod (a + b - 1) b ltac:(lia)) as D2.
  pose proof (Z.mod_pos_bound (a + b - 1) b Hb) as B2.
  nia.
Qed.

Lemma ceil_div_nat (n s : nat) :
  (1 <= s)%nat ->
  Z.to_nat (ceil_div (Z.of_nat n) (Z.of_nat s)) = ((n + s - 1) / s)%nat.
Proof.
  intro Hs. rewrite ceil_div_Z by lia.
  replace (Z.of_nat n + Z.of_nat s - 1)%Z with (Z.of_nat (n + s - 1)) by lia.
  rewrite <- Nat2Z.inj_div. apply Nat2Z.id.
Qed.

(** The sampled indices are the multiples of the stride below the total. *)
Lemma sampled_indices_filter (total : nat) (stride : Z) :
  (1 <= stride)%Z ->
  sampled_indices total stride =
  filter (fun i => (i mod Z.to_nat stride =? 0)%nat) (seq 0 total).
Proof.
  intro Hs. unfold sampled_indices.
  rewrite filter_multiples by lia.
  rewrite <- (Z2Nat.id stride) at 1 by lia.
  now rewrite ceil_div_nat by lia.
Qed.

(** What [select] keeps, by position. *)
Lemma select_positions {A : Type} (s : nat) (l : list A) :
  forall c,
    Forall2 (fun i x => (c <= i)%nat /\ nth_error l (i - c) = Some x)
            (filter (fun i => (i mod s =? 0)%nat) (seq c (List.length l)))
            (select s c l).
Proof.
  induction l as [|x r IH]; intro c; [constructor|].
  cbn [List.length seq filter select].
  assert (Htail :
    Forall2 (fun i y => (c <= i)%nat /\ nth_error (x :: r) (i - c) = Some y)
            (filter (fun i => (i mod s =? 0)%nat) (seq (S c) (List.length r)))
            (select s (S c) r)).
  { eapply Forall2_impl; [|apply IH].
    intros i y [Hle Hn]. split; [lia|].
    replace (i - c)%nat with (S (i - S c)) by lia. exact Hn. }
  destruct (c mod s =? 0)%nat; [|exact Htail].
  constructor; [|exact Htail].
  split; [lia|]. now rewrite Nat.sub_diag.
Qed.

Lemma select_sampled {A : Type} (stride : Z) (l : list A) :
  (1 <= stride)%Z ->
  Forall2 (fun i x => nth_error l i = Some x)
          (sampled_indices (List.length l) stride)
          (select (Z.to_nat stride) 0 l).
Proof.
  intro Hs. rewrite sampled_indices_filter by exact Hs.
  eapply Forall2_impl; [|apply select_positions].
  intros i x [_ Hn]. now rewrite Nat.sub_0_r in Hn.
Qed.

(** ** The sampler as a whole *)


(** A successful run: result, frame count and final handle. *)
Lemma extract_frames_ok (Mat : Type) (imencode : Mat -> option (list byte))
    (file : option (VideoFile Mat)) (target_fps : Q) :
  (0 < target_fps)%Q ->
  all_encodable imencode (native_frames file) = true ->
  exists strs,
    Forall2 (fun f b64 => encode_frame imencode f = Ok b64)
            (native_frames file) strs /\
    extract_frames imencode file target_fps =
    (Ok (select
           (Z.to_nat (Z.max 1 (Qfloor (reported_fps file / target_fps))))
           0 strs,
         Z.of_nat (List.length (native_frames file))),
     mkVideoCapture false (reported_fps file) [] 1).
Proof.
  intros Ht Henc.
  destruct (all_encodable_Forall2 _ _ Henc) as [strs Hstrs].
  exists strs. split; [exact Hstrs|].
  destruct file as [[fps frames]|].
  - now apply extract_frames_opened.
  - cbn in Hstrs. inversion Hstrs; subst.
    now rewrite extract_frames_unopened.
Qed.






(** The 30-second clip, run: 30 strings, from frames 0, 30, ..., 870. *)
Example clip_30s_run :
  base64Frames_of toy_imencode clip_30s 1 = Ok (repeat "Kg=="%string 30) /\
  fst (extract_frames toy_imencode clip_30s 1) =
    Ok (repeat "Kg=="%string 30, 900%Z) /\
  sampled_indices 900 30 = map (fun k => (30 * k)%nat) (seq 0 30).
Proof. repeat split; vm_compute; reflexivity. Qed.

(** A concrete run: stride 2 over five frames keeps frames 0, 2 and 4. *)
Example demo_run :
  base64Frames_of toy_imencode demo_file 1 = Ok ["AQ=="; "BAUG"; "CAk="]%string
  /\ sampled_indices 5 2 = [0; 2; 4]%nat.
Proof. split; reflexivity. Qed.

(** ** Order of the sampled indices *)







(** ** Base64: decoding undoes encoding *)

(** Induction on byte lists three bytes at a time. *)
Lemma list_ind3 {A : Type} (P : list A -> Prop) :
  P [] ->
  (forall a, P [a]) ->
  (forall a b, P [a; b]) ->
  (forall a b c rest, P rest -> P (a :: b :: c :: rest)) ->
  forall l, P l.
Proof.
  intros H0 H1 H2 H3.
  assert (H : forall l, P l /\ (forall a, P (a :: l)) /\
                        (forall a b, P (a :: b :: l))).
  { induction l as [|x l (IH0 & IH1 & IH2)].
    - repeat split; auto.
    - repeat split; auto. }
  intro l. apply H.
Qed.

Module Base64Facts.

Import Base64.
Local Open Scope N_scope.

(** RFC 4648, section 10. *)
Example rfc4648_vectors :
  map (fun s => b64encode (list_byte_of_string s))
      [EmptyString; "f"; "fo"; "foo"; "foob"; "fooba"; "foobar"]%string =
  [EmptyString; "Zg=="; "Zm8="; "Zm9v"; "Zm9vYg=="; "Zm9vYmE=";
       "Zm9vYmFy"]%string.
Proof. reflexivity. Qed.

Example rfc4648_vectors_back :
  map b64decode
      [EmptyString; "Zg=="; "Zm8="; "Zm9v"; "Zm9vYg=="; "Zm9vYmE=";
       "Zm9vYmFy"]%string =
  map (fun s => Some (list_byte_of_string s))
      [EmptyString; "f"; "fo"; "foo"; "foob"; "fooba"; "foobar"]%string.
Proof. reflexivity. Qed.

Example b64decode_rejects : b64decode "Zm9"%string = None.
Proof. reflexivity. Qed.

Lemma alphabet_checked : forallb alphabet_ok (seq 0 64) = true.
Proof. vm_compute. reflexivity. Qed.

Lemma alphabet_ok_at (i : N) : i < 64 -> alphabet_ok (N.to_nat i) = true.
Proof.
  intro Hi.
  apply (proj1 (forallb_forall alphabet_ok (seq 0 64)) alphabet_checked).
  apply in_seq. lia.
Qed.

(** The 64 characters are distinct: a character's index is found again. *)
Lemma b64index_b64char (i : N) : i < 64 -> b64index (b64char i) = Some i.
Proof.
  intro Hi. pose proof (alphabet_ok_at Hi) as H.
  unfold alphabet_ok in H. rewrite N2Nat.id in H.
  destruct (b64index (b64char i)) as [j|]; [|discriminate H].
  apply andb_true_iff in H. destruct H as [H _].
  apply N.eqb_eq in H. now subst.
Qed.

(** None of them is the padding character. *)
Lemma b64char_not_pad (i : N) : i < 64 -> Ascii.eqb (b64char i) pad = false.
Proof.
  intro Hi. pose proof (alphabet_ok_at Hi) as H.
  unfold alphabet_ok in H. rewrite N2Nat.id in H.
  destruct (b64index (b64char i)); [|discriminate H].
  apply andb_true_iff in H. destruct H as [_ H].
  now apply negb_true_iff in H.
Qed.

Lemma group24_bound (a b c : byte) :
  group24 (Byte.to_N a) (Byte.to_N b) (Byte.to_N c) < 16777216.
Proof.
  pose proof (Byte.to_N_bounded a). pose proof (Byte.to_N_bounded b).
  pose proof (Byte.to_N_bounded c). unfold group24. lia.
Qed.

Lemma sextet_bound (k : nat) (n : N) : n < 16777216 -> sextet k n < 64.
Proof.
  intro Hn. destruct k as [|[|[|k]]]; cbn [sextet].
  - apply N.Div0.div_lt_upper_bound. lia.
  - now apply N.mod_lt.
  - now apply N.mod_lt.
  - now apply N.mod_lt.
Qed.

(** The four 6-bit groups hold the 24 bits. *)
Lemma group_of_sextets_sextet (n : N) :
  group_of_sextets (sextet 0 n) (sextet 1 n) (sextet 2 n) (sextet 3 n) = n.
Proof.
  unfold group_of_sextets, sextet.
  pose proof (N.div_mod n 64 ltac:(lia)).
  pose proof (N.div_mod (n / 64) 64 ltac:(lia)).
  pose proof (N.div_mod (n / 4096) 64 ltac:(lia)).
  replace (n / 4096) with (n / 64 / 64) in * by
    (rewrite N.Div0.div_div; reflexivity).
  replace (n / 262144) with (n / 64 / 64 / 64) by
    (rewrite !N.Div0.div_div; reflexivity).
  lia.
Qed.

(** The three octets of a 24-bit group. *)
Lemma octets_group24 (a b c : byte) :
  let n := group24 (Byte.to_N a) (Byte.to_N b) (Byte.to_N c) in
  octet 0 n = Some a /\ octet 1 n = Some b /\ octet 2 n = Some c.
Proof.
  pose proof (Byte.to_N_bounded a) as Ha.
  pose proof (Byte.to_N_bounded b) as Hb.
  pose proof (Byte.to_N_bounded c) as Hc.
  cbv zeta. unfold octet, group24.
  set (x := Byte.to_N a) in *. set (y := Byte.to_N b) in *.
  set (z := Byte.to_N c) in *.
  assert (E0 : (x * 65536 + y * 256 + z) / 65536 = x).
  { symmetry. apply (N.div_unique _ _ _ (y * 256 + z)); lia. }
  assert (E1 : (x * 65536 + y * 256 + z) / 256 = x * 256 + y).
  { symmetry. apply (N.div_unique _ _ _ z); lia. }
  assert (E1' : (x * 256 + y) mod 256 = y).
  { symmetry. apply (N.mod_unique _ _ x); lia. }
  assert (E2 : (x * 65536 + y * 256 + z) mod 256 = z).
  { symmetry. apply (N.mod_unique _ _ (x * 256 + y)); lia. }
  rewrite E0, E1, E1', E2. unfold x, y, z.
  now rewrite !Byte.of_to_N.
Qed.

Lemma sextet_low_zero (x y : N) :
  sextet 3 (group24 x y 0) = 0 /\ sextet 2 (group24 x 0 0) = 0.
Proof.
  unfold sextet, group24. split.
  - symmetry. apply (N.mod_unique _ _ (x * 1024 + y * 4)); lia.
  - replace ((x * 65536 + 0 * 256 + 0) / 64) with (x * 1024)
      by (apply (N.div_unique _ _ _ 0); lia).
    symmetry. apply (N.mod_unique _ _ (x * 16)); lia.
Qed.

(** Decoding one full group of four characters. *)
Lemma b64decode_full (s1 s2 s3 s4 : N) (rest : string) :
  s1 < 64 -> s2 < 64 -> s3 < 64 -> s4 < 64 ->
  b64decode (str4 (b64char s1) (b64char s2) (b64char s3) (b64char s4) rest) =
  let n := group_of_sextets s1 s2 s3 s4 in
  cons_opt (octet 0 n)
    (cons_opt (octet 1 n) (cons_opt (octet 2 n) (b64decode rest))).
Proof.
  intros H1 H2 H3 H4. unfold str4. cbn [b64decode].
  rewrite !b64index_b64char by assumption.
  now rewrite b64char_not_pad by assumption.
Qed.

(** Decoding a final group with one padding character. *)
Lemma b64decode_pad1 (s1 s2 s3 : N) :
  s1 < 64 -> s2 < 64 -> s3 < 64 ->
  b64decode (str4 (b64char s1) (b64char s2) (b64char s3) pad EmptyString) =
  let n := group_of_sextets s1 s2 s3 0 in
  cons_opt (octet 0 n) (cons_opt (octet 1 n) (Some [])).
Proof.
  intros H1 H2 H3. unfold str4. cbn [b64decode].
  rewrite !b64index_b64char by assumption.
  change (Ascii.eqb pad pad) with true. cbv iota.
  now rewrite b64char_not_pad by assumption.
Qed.

(** Decoding a final group with two padding characters. *)
Lemma b64decode_pad2 (s1 s2 : N) :
  s1 < 64 -> s2 < 64 ->
  b64decode (str4 (b64char s1) (b64char s2) pad pad EmptyString) =
  cons_opt (octet 0 (group_of_sextets s1 s2 0 0)) (Some []).
Proof.
  intros H1 H2. unfold str4. cbn [b64decode].
  now rewrite !b64index_b64char by assumption.
Qed.

Lemma b64decode_b64encode (bs : list byte) :
  b64decode (b64encode bs) = Some bs.
Proof.
  induction bs as [|a|a b|a b c rest IH] using list_ind3.
  - reflexivity.
  - cbn [b64encode]. cbv zeta.
    pose proof (group24_bound a x00 x00) as Hn.
    change (Byte.to_N x00) with 0 in Hn.
    rewrite b64decode_pad2 by (apply sextet_bound; exact Hn).
    pose proof (group_of_sextets_sextet (group24 (Byte.to_N a) 0 0)) as E.
    destruct (sextet_low_zero (Byte.to_N a) 0) as [E3 E2].
    rewrite E3, E2 in E. rewrite E.
    destruct (octets_group24 a x00 x00) as (O0 & _).
    change (Byte.to_N x00) with 0 in O0. now rewrite O0.
  - cbn [b64encode]. cbv zeta.
    pose proof (group24_bound a b x00) as Hn.
    change (Byte.to_N x00) with 0 in Hn.
    rewrite b64decode_pad1 by (apply sextet_bound; exact Hn). cbv zeta.
    pose proof
      (group_of_sextets_sextet (group24 (Byte.to_N a) (Byte.to_N b) 0)) as E.
    destruct (sextet_low_zero (Byte.to_N a) (Byte.to_N b)) as [E3 _].
    rewrite E3 in E. rewrite E.
    destruct (octets_group24 a b x00) as (O0 & O1 & _).
    change (Byte.to_N x00) with 0 in O0, O1. now rewrite O0, O1.
  - cbn [b64encode]. cbv zeta.
    pose proof (group24_bound a b c) as Hn.
    rewrite b64decode_full by (apply sextet_bound; exact Hn). cbv zeta.
    rewrite group_of_sextets_sextet.
    destruct (octets_group24 a b c) as (O0 & O1 & O2).
    now rewrite O0, O1, O2, IH.
Qed.

End Base64Facts.

(** ** The request *)

Lemma strip_prefix_app (p s : string) : strip_prefix p (p ++ s) = Some s.
Proof.
  induction p as [|a p IH]; cbn [strip_prefix String.append].
  - reflexivity.
  - now rewrite Ascii.eqb_refl.
Qed.

Lemma decode_data_uri_data_uri (b64 : string) :
  decode_data_uri (data_uri b64) = Base64.b64decode b64.
Proof.
  unfold decode_data_uri, data_uri. now rewrite strip_prefix_app.
Qed.

Lemma image_refs_of_image_parts (detail : string) (frames : list string) :
  image_refs_of_content (map (image_part detail) frames) =
  map (fun frame => mkImageUrl (data_uri frame) (SetOf [detail])) frames.
Proof.
  unfold image_refs_of_content.
  induction frames as [|f r IH]; [reflexivity|].
  cbn [map flat_map image_part app]. now rewrite IH.
Qed.

Lemma image_refs_messages (detail : string) (frames : list string) :
  image_refs (messages detail frames) =
  map (fun frame => mkImageUrl (data_uri frame) (SetOf [detail])) frames.
Proof.
  unfold image_refs, messages. cbn [flat_map content].
  rewrite app_nil_r.
  change (image_refs_of_content (Text instruction :: ?l))
    with (image_refs_of_content l).
  apply image_refs_of_image_parts.
Qed.

(** C10. The data URI built for an emitted string is the literal
    [data:image/jpeg;base64,] followed by the string.  For a frame whose
    compressed buffer the codec returns, lines 96-97 emit the base64 string
    of that buffer, line 159 builds the data URI from it, and stripping the
    literal prefix and base64-decoding the rest gives the buffer back; so
    the image references of a request decode, in order, to the buffers they
    were built from. *)
Theorem data_uri_round_trip (buffer : list byte) :
  data_uri (Base64.b64encode buffer) =
    ("data:image/jpeg;base64," ++ Base64.b64encode buffer)%string /\
  strip_prefix "data:image/jpeg;base64,"
               (data_uri (Base64.b64encode buffer)) =
    Some (Base64.b64encode buffer) /\
  Base64.b64decode (Base64.b64encode buffer) = Some buffer /\
  decode_data_uri (data_uri (Base64.b64encode buffer)) = Some buffer /\
  (forall (Mat : Type) (imencode : Mat -> option (list byte)) (frame : Mat)
          (detail : string),
      imencode frame = Some buffer ->
      exists b64 ref,
        encode_frame imencode frame = Ok b64 /\
        image_part detail b64 = Image_url ref /\
        strip_prefix "data:image/jpeg;base64," (url ref) = Some b64 /\
        Base64.b64decode b64 = Some buffer) /\
  (forall (detail : string) (buffers : list (list byte)),
      map (fun ref =>
             match strip_prefix "data:image/jpeg;base64," (url ref) with
             | Some b64 => Base64.b64decode b64
             | None => None
             end)
          (image_refs (messages detail (map Base64.b64encode buffers))) =
      map Some buffers) /\
  (forall (detail : string) (buffers : list (list byte)),
      map (fun ref => decode_data_uri (url ref))
          (image_refs (messages detail (map Base64.b64encode buffers))) =
      map Some buffers).
Proof.
  assert (Hstrip : forall b64,
            strip_prefix "data:image/jpeg;base64," (data_uri b64) = Some b64)
    by (intro b64; apply (strip_prefix_app data_uri_prefix)).
  split; [reflexivity|]. split; [apply Hstrip|].
  split; [apply Base64Facts.b64decode_b64encode|].
  split.
  { rewrite decode_data_uri_data_uri.
    apply Base64Facts.b64decode_b64encode. }
  split; [|split].
  - intros Mat imencode frame detail Hbuf.
    exists (Base64.b64encode buffer),
           (mkImageUrl (data_uri (Base64.b64encode buffer)) (SetOf [detail])).
    unfold encode_frame. rewrite Hbuf. cbn [url].
    split; [reflexivity|]. split; [reflexivity|].
    split; [apply Hstrip | apply Base64Facts.b64decode_b64encode].
  - intros detail buffers. rewrite image_refs_messages, !map_map.
    apply map_ext. intro b. cbn [url]. rewrite Hstrip.
    apply Base64Facts.b64decode_b64encode.
  - intros detail buffers. rewrite image_refs_messages, !map_map.
    apply map_ext. intro b. cbn [url].
    rewrite decode_data_uri_data_uri. apply Base64Facts.b64decode_b64encode.
Qed.

(** The round trip on a concrete frame. *)
Example data_uri_round_trip_run :
  encode_frame toy_imencode [x01; x02; x03]%byte = Ok "AQID"%string /\
  image_part "low" "AQID" =
    Image_url (mkImageUrl "data:image/jpeg;base64,AQID" (SetOf ["low"%string]))
  /\
  strip_prefix "data:image/jpeg;base64," "data:image/jpeg;base64,AQID" =
    Some "AQID"%string /\
  Base64.b64decode "AQID" = Some [x01; x02; x03]%byte.
Proof. repeat split. Qed.



(** C5: line 160 at [detail = "low"] and one frame.  The value stored under
    ["detail"] is the set [{"low"}], not the string ["low"]; it is the same
    set for every image reference of a request. *)
Theorem detail_is_wrapped_in_a_set :
  map detail (image_refs (messages "low" ["AQ=="]%string)) =
    [SetOf ["low"%string]] /\
  SetOf ["low"%string] <> Str "low" /\
  (forall d frames ref,
      In ref (image_refs (messages d frames)) -> detail ref = SetOf [d]).
Proof.
  split; [reflexivity|]. split; [discriminate|].
  intros d frames ref Hin. rewrite image_refs_messages in Hin.
  apply in_map_iff in Hin. destruct Hin as (f & <- & _). reflexivity.
Qed.

(** ** The handle *)

Section HandleProofs.

Variable Mat : Type.
Variable imencode : Mat -> option (list byte).

(** An encoding never reports exhaustion of the loop's fuel. *)
Lemma encode_frame_error (f : Mat) (e : exception) :
  encode_frame imencode f = Raise e -> e = cv2_error.
Proof.
  unfold encode_frame. destruct (imencode f); congruence.
Qed.

(** The loop never calls [release()], and with one unit of fuel more than
    there are frames left it does not run out of fuel. *)
Lemma while_loop_handle (fuel : nat) :
  forall stride acc c (v : VideoCapture Mat),
    let run := while_loop imencode fuel stride acc c v in
    releases (snd run) = releases v /\
    ((List.length (frames_left v) < fuel)%nat ->
     fst run <> Raise NonTermination).
Proof.
  induction fuel as [|fuel IH]; intros stride acc c v; cbv zeta.
  - split; [reflexivity|]. intro H. inversion H.
  - destruct v as [o fps l rel]. cbn [frames_left releases].
    destruct o.
    + destruct l as [|f r].
      * rewrite while_loop_eos. split; [reflexivity|]. discriminate.
      * rewrite while_loop_step. cbn [List.length].
        destruct (c mod stride =? 0)%Z.
        -- destruct (encode_frame imencode f) as [b64|e] eqn:E.
           ++ destruct (IH stride (acc ++ [b64]) (c + 1)%Z
                          (mkVideoCapture true fps r rel)) as [H1 H2].
              split; [exact H1|]. intro H. apply H2. cbn [frames_left]. lia.
           ++ split; [reflexivity|]. intros _. cbn [fst].
              rewrite (encode_frame_error _ E). discriminate.
        -- destruct (IH stride acc (c + 1)%Z
                        (mkVideoCapture true fps r rel)) as [H1 H2].
           split; [exact H1|]. intro H. apply H2. cbn [frames_left]. lia.
    + rewrite while_loop_closed. split; [reflexivity|]. discriminate.
Qed.

(** The cell releases the handle once when it ends normally and not at all
    when an exception leaves it. *)
Lemma extract_frames_releases (file : option (VideoFile Mat))
    (target_fps : Q) :
  match extract_frames imencode file target_fps with
  | (Ok _, video) => releases video = 1%nat /\ opened video = false
  | (Raise e, video) => releases video = 0%nat /\ e <> NonTermination
  end.
Proof.
  unfold extract_frames, sampler.
  set (v0 := VideoCapture_new file).
  assert (H0 : releases v0 = 0%nat) by (destruct file; reflexivity).
  unfold bind at 1. cbn [video_get_fps].
  unfold bind at 1. unfold lift at 1.
  destruct (frame_skip _ target_fps) as [stride|e] eqn:Hskip.
  - unfold bind at 1. cbn [enough_fuel].
    unfold bind at 1.
    destruct (while_loop_handle (S (List.length (frames_left v0)))
                stride [] 0%Z v0) as [Hrel Hfuel].
    destruct (while_loop imencode _ stride [] 0%Z v0) as [[r|e] v1].
    + cbn. split; [|reflexivity]. cbn in Hrel. now rewrite Hrel, H0.
    + cbn in Hrel, Hfuel |- *. split; [now rewrite Hrel|].
      intro He. subst e. apply Hfuel; [lia|reflexivity].
  - split; [exact H0|].
    unfold frame_skip, Py.floordiv in Hskip.
    destruct (Qeq_bool target_fps 0); [|discriminate Hskip].
    inversion Hskip. discriminate.
Qed.

End HandleProofs.

(** C9, as stated, fails: when the codec refuses the second of three frames
    the cell ends with [cv2.error] and [release()] has not been called. *)
Lemma release_skipped_on_encode_error :
  fst (extract_frames toy_imencode broken_file 1) = Raise cv2_error /\
  releases (snd (extract_frames toy_imencode broken_file 1)) = 0%nat /\
  releases (snd (extract_frames toy_imencode broken_file 1)) <> 1%nat.
Proof. repeat split. discriminate. Qed.

(** C9, amended. The sampler releases the handle exactly once when it ends
    normally (end of stream, a failed read, or a source that did not open);
    when an exception leaves the cell the handle has not been released.  With
    a positive target rate and frames that encode the cell ends normally. *)
Theorem release_once_on_normal_exit (Mat : Type)
    (imencode : Mat -> option (list byte))
    (file : option (VideoFile Mat)) (target_fps : Q) :
  match extract_frames imencode file target_fps with
  | (Ok _, video) => releases video = 1%nat /\ opened video = false
  | (Raise e, video) => releases video = 0%nat /\ e <> NonTermination
  end /\
  ((0 < target_fps)%Q ->
   all_encodable imencode (native_frames file) = true ->
   exists r video,
     extract_frames imencode file target_fps = (Ok r, video) /\
     releases video = 1%nat).
Proof.
  split; [apply extract_frames_releases|].
  intros Ht Henc.
  destruct (extract_frames_ok imencode file Ht Henc) as (strs & _ & Hrun).
  rewrite Hrun. eexists _, _. split; reflexivity.
Qed.

(** ** The cost reporter *)

Lemma truediv_nonzero (x y : Q) :
  ~ (y == 0)%Q -> Py.truediv x y = Ok (x / y)%Q.
Proof.
  intro Hy. unfold Py.truediv.
  destruct (Qeq_bool y 0) eqn:E; [|reflexivity].
  apply Qeq_bool_eq in E. contradiction.
Qed.

Lemma cost_report_nonempty (input_tokens output_tokens : Z)
    (frames : list string) :
  frames <> [] ->
  cost_report input_tokens output_tokens frames =
  let i := (inject_Z input_tokens / 1000000 * P_in)%Q in
  let o := (inject_Z output_tokens / 1000000 * P_out)%Q in
  Ok (mkCostBreakdown i o (i + o)
        ((i + o) / inject_Z (Z.of_nat (List.length frames)))).
Proof.
  intro Hne. unfold cost_report.
  rewrite !(truediv_nonzero _ (y := 1000000)) by discriminate.
  rewrite truediv_nonzero; [reflexivity|].
  destruct frames as [|f r]; [contradiction|].
  unfold Qeq. cbn [List.length Qnum Qden inject_Z]. lia.
Qed.

Lemma cost_report_empty (input_tokens output_tokens : Z) :
  cost_report input_tokens output_tokens [] = Raise ZeroDivisionError.
Proof.
  unfold cost_report.
  now rewrite !(truediv_nonzero _ (y := 1000000)) by discriminate.
Qed.

(** C6. With at least one frame the cost reporter returns
    [input_cost = input_tokens / 1_000_000 * P_in],
    [output_cost = output_tokens / 1_000_000 * P_out], their sum, and the sum
    divided by the number of frames, with [P_in = 2] and [P_out = 8]; for
    5100 and 300 tokens and 30 frames these are 0.0102, 0.0024, 0.0126 and
    0.00042. *)
Theorem cost_report_formulas (input_tokens output_tokens : Z)
    (base64Frames : list string) :
  (0 < List.length base64Frames)%nat ->
  exists c,
    cost_report input_tokens output_tokens base64Frames = Ok c /\
    (P_in == 2 /\ P_out == 8)%Q /\
    (input_cost c == inject_Z input_tokens / 1000000 * P_in)%Q /\
    (output_cost c == inject_Z output_tokens / 1000000 * P_out)%Q /\
    (total_cost c == input_cost c + output_cost c)%Q /\
    (cost_per_frame c ==
       total_cost c / inject_Z (Z.of_nat (List.length base64Frames)))%Q /\
    (input_tokens = 5100%Z -> output_tokens = 300%Z ->
     List.length base64Frames = 30%nat ->
     (input_cost c == 0.0102 /\ output_cost c == 0.0024 /\
      total_cost c == 0.0126 /\ cost_per_frame c == 0.00042)%Q).
Proof.
  intro Hn.
  assert (Hne : base64Frames <> []).
  { intro E. rewrite E in Hn. inversion Hn. }
  rewrite (cost_report_nonempty _ _ Hne). cbv zeta.
  eexists. split; [reflexivity|].
  cbn [input_cost output_cost total_cost cost_per_frame].
  split; [split; reflexivity|].
  do 4 (split; [reflexivity|]).
  intros -> -> ->. repeat split.
Qed.

Lemma cost_report_formulas_witness :
  (0 < List.length (repeat "AQ=="%string 30))%nat /\
  exists c,
    cost_report 5100 300 (repeat "AQ=="%string 30) = Ok c /\
    (P_in == 2 /\ P_out == 8)%Q /\
    (input_cost c == inject_Z 5100 / 1000000 * P_in)%Q /\
    (output_cost c == inject_Z 300 / 1000000 * P_out)%Q /\
    (total_cost c == input_cost c + output_cost c)%Q /\
    (cost_per_frame c ==
       total_cost c /
       inject_Z (Z.of_nat (List.length (repeat "AQ=="%string 30))))%Q /\
    (5100%Z = 5100%Z -> 300%Z = 300%Z ->
     List.length (repeat "AQ=="%string 30) = 30%nat ->
     (input_cost c == 0.0102 /\ output_cost c == 0.0024 /\
      total_cost c == 0.0126 /\ cost_per_frame c == 0.00042)%Q).
Proof.
  split; [cbn; lia|].
  apply (@cost_report_formulas 5100 300 (repeat "AQ=="%string 30)).
  cbn; lia.
Defined.

(** C7. With no frame sampled the cost reporter raises
    [ZeroDivisionError]; it raises exactly in that case, and a breakdown it
    does return has a cost per frame that, times the frame count, is the
    total cost.  A source that does not open leads there: no frame, then the
    error. *)
Theorem cost_report_zero_frames (input_tokens output_tokens : Z) :
  cost_report input_tokens output_tokens [] = Raise ZeroDivisionError /\
  (forall frames,
      (exists e, cost_report input_tokens output_tokens frames = Raise e)
      <-> frames = []) /\
  (forall frames c,
      cost_report input_tokens output_tokens frames = Ok c ->
      (0 < List.length frames)%nat /\
      (cost_per_frame c * inject_Z (Z.of_nat (List.length frames)) ==
       total_cost c)%Q) /\
  (forall (Mat : Type) (imencode : Mat -> option (list byte)),
      base64Frames_of imencode None 1 = Ok []).
Proof.
  split; [apply cost_report_empty|]. split; [|split].
  - intro frames. split.
    + intros [e He]. destruct frames as [|f r]; [reflexivity|].
      rewrite cost_report_nonempty in He by discriminate. discriminate He.
    + intros ->. exists ZeroDivisionError. apply cost_report_empty.
  - intros frames c Hc. destruct frames as [|f r].
    + rewrite cost_report_empty in Hc. discriminate Hc.
    + rewrite cost_report_nonempty in Hc by discriminate.
      cbv zeta in Hc. inversion Hc; subst; clear Hc.
      cbn [cost_per_frame total_cost]. split; [cbn; lia|].
      rewrite Qmult_comm. apply Qmult_div_r.
      unfold Qeq. cbn [List.length Qnum Qden inject_Z]. lia.
  - intros Mat imencode. reflexivity.
Qed.

Lemma release_once_on_normal_exit_witness :
  match extract_frames toy_imencode demo_file 1 with
  | (Ok _, video) => releases video = 1%nat /\ opened video = false
  | (Raise e, video) => releases video = 0%nat /\ e <> NonTermination
  end /\
  ((0 < 1)%Q ->
   all_encodable toy_imencode (native_frames demo_file) = true ->
   exists r video,
     extract_frames toy_imencode demo_file 1 = (Ok r, video) /\
     releases video = 1%nat).
Proof.
  exact (@release_once_on_normal_exit _ toy_imencode demo_file 1).
Defined.

(** * Further properties of the three cells *)

(** ** The sampling loop, whatever the codec does *)

Section LoopGeneral.

Variable Mat : Type.
Variable imencode : Mat -> option (list byte).

(** The loop meets the codec only on the frames [select] keeps: it ends
    normally when all of them encode, and with the codec's error at the
    first that does not. *)
Lemma while_loop_encode_all (s : nat) fps rel :
  forall (frames : list Mat) fuel acc c,
    (List.length frames < fuel)%nat ->
    match encode_all imencode (select s c frames) with
    | Ok strs =>
        while_loop imencode fuel (Z.of_nat s) acc (Z.of_nat c)
                   (mkVideoCapture true fps frames rel) =
        (Ok (acc ++ strs, Z.of_nat (c + List.length frames)),
         mkVideoCapture true fps [] rel)
    | Raise e =>
        fst (while_loop imencode fuel (Z.of_nat s) acc (Z.of_nat c)
                        (mkVideoCapture true fps frames rel)) = Raise e
    end.
Proof.
  induction frames as [|f frames IH]; intros fuel acc c Hfuel.
  - destruct fuel as [|fuel]; [inversion Hfuel|].
    cbn [select encode_all]. rewrite while_loop_eos. cbn [List.length].
    now rewrite app_nil_r, Nat.add_0_r.
  - destruct fuel as [|fuel]; [inversion Hfuel|].
    cbn [List.length] in Hfuel.
    rewrite while_loop_step, mod_test_nat_Z. cbn [select].
    replace (Z.of_nat c + 1)%Z with (Z.of_nat (S c)) by lia.
    replace (c + List.length (f :: frames))%nat
      with (S c + List.length frames)%nat by (cbn [List.length]; lia).
    destruct (c mod s =? 0)%nat.
    + cbn [encode_all].
      destruct (encode_frame imencode f) as [b64|e]; [|reflexivity].
      specialize (IH fuel (acc ++ [b64]) (S c) ltac:(lia)).
      destruct (encode_all imencode (select s (S c) frames)) as [rest|e].
      * rewrite IH. now rewrite <- app_assoc.
      * exact IH.
    + apply IH. lia.
Qed.

Lemma frame_skip_ok_ge_1 (fps target_fps : Q) (stride : Z) :
  frame_skip fps target_fps = Ok stride -> (1 <= stride)%Z.
Proof.
  unfold frame_skip. destruct (Py.floordiv fps target_fps); [|discriminate].
  intro H. inversion H. unfold Py.max. lia.
Qed.

(** The whole cell, once the stride is known. *)
Lemma extract_frames_encode_all (file : option (VideoFile Mat))
    (target_fps : Q) (stride : Z) :
  frame_skip (reported_fps file) target_fps = Ok stride ->
  match encode_all imencode
          (select (Z.to_nat stride) 0 (native_frames file)) with
  | Ok strs =>
      extract_frames imencode file target_fps =
      (Ok (strs, Z.of_nat (List.length (native_frames file))),
       mkVideoCapture false (reported_fps file) [] 1)
  | Raise e => fst (extract_frames imencode file target_fps) = Raise e
  end.
Proof.
  intro Hskip. pose proof (frame_skip_ok_ge_1 _ _ Hskip) as Hs.
  destruct file as [[fps frames]|].
  - cbn [reported_fps native_frames file_fps file_frames] in *.
    pose proof (while_loop_encode_all (Z.to_nat stride) fps 0 frames
                  (fuel := S (List.length frames)) [] 0 ltac:(lia)) as H.
    rewrite Z2Nat.id in H by lia. change (Z.of_nat 0) with 0%Z in H.
    assert (Hrun :
      extract_frames imencode (Some (mkVideoFile fps frames)) target_fps =
      bind (while_loop imencode (S (List.length frames)) stride [] 0%Z)
           (fun r => bind (@video_release Mat) (fun _ => ret r))
           (mkVideoCapture true fps frames 0)).
    { unfold extract_frames, sampler, VideoCapture_new.
      cbn [file_fps file_frames].
      unfold bind at 1. cbn [video_get_fps opened CAP_PROP_FPS].
      unfold bind at 1. unfold lift at 1. rewrite Hskip.
      unfold bind at 1. cbn [enough_fuel frames_left]. reflexivity. }
    rewrite Hrun.
    destruct (encode_all imencode (select (Z.to_nat stride) 0 frames))
      as [strs|e]; unfold bind at 1.
    + rewrite H. reflexivity.
    + destruct (while_loop imencode _ stride [] 0%Z _) as [[r|e'] v].
      * discriminate H.
      * exact H.
  - cbn [reported_fps native_frames] in *.
    cbn [select encode_all].
    unfold extract_frames, sampler, VideoCapture_new.
    unfold bind at 1. cbn [video_get_fps opened].
    unfold bind at 1. unfold lift at 1. rewrite Hskip. reflexivity.
Qed.

Lemma encode_all_ok_iff (frames : list Mat) :
  (exists strs, encode_all imencode frames = Ok strs) <->
  Forall (fun f => imencode f <> None) frames.
Proof.
  induction frames as [|f r IH]; cbn [encode_all].
  - split; [constructor | intros _; now eexists].
  - unfold encode_frame at 1. destruct (imencode f) as [buf|] eqn:E.
    + split.
      * intros [strs H]. constructor; [congruence|]. apply IH.
        destruct (encode_all imencode r); [now eexists | discriminate H].
      * intro H. inversion H as [|? ? _ Hr]; subst.
        apply IH in Hr. destruct Hr as [rest ->]. now eexists.
    + split.
      * intros [strs H]. discriminate H.
      * intro H. inversion H as [|? ? Hf _]; subst. congruence.
Qed.

Lemma encode_all_error (frames : list Mat) (e : exception) :
  encode_all imencode frames = Raise e -> e = cv2_error.
Proof.
  induction frames as [|f r IH]; cbn [encode_all]; [discriminate|].
  destruct (encode_frame imencode f) eqn:E.
  - destruct (encode_all imencode r); [discriminate|].
    intro H. inversion H; subst. now apply IH.
  - intro H. inversion H; subst. exact (encode_frame_error _ _ E).
Qed.

Lemma encode_all_Forall2 (frames : list Mat) (strs : list string) :
  encode_all imencode frames = Ok strs ->
  Forall2 (fun f b64 => encode_frame imencode f = Ok b64) frames strs.
Proof.
  revert strs. induction frames as [|f r IH]; cbn [encode_all]; intros strs H.
  - inversion H. constructor.
  - destruct (encode_frame imencode f) as [b64|] eqn:E; [|discriminate H].
    destruct (encode_all imencode r) as [rest|]; [|discriminate H].
    inversion H; subst. constructor; [exact E | now apply IH].
Qed.

End LoopGeneral.

Lemma Forall2_In_l {A B : Type} (R : A -> B -> Prop) l l' a :
  Forall2 R l l' -> In a l -> exists b, In b l' /\ R a b.
Proof.
  induction 1 as [|x y l l' Hxy _ IH]; intros Hin; [contradiction|].
  destruct Hin as [<-|Hin].
  - exists y. split; [now left | exact Hxy].
  - destruct (IH Hin) as (b & Hb & HR). exists b. split; [now right|exact HR].
Qed.

Lemma Forall2_In_r {A B : Type} (R : A -> B -> Prop) l l' b :
  Forall2 R l l' -> In b l' -> exists a, In a l /\ R a b.
Proof.
  induction 1 as [|x y l l' Hxy _ IH]; intros Hin; [contradiction|].
  destruct Hin as [<-|Hin].
  - exists x. split; [now left | exact Hxy].
  - destruct (IH Hin) as (a & Ha & HR). exists a. split; [now right|exact HR].
Qed.

(** A property of the frames [select] keeps is a property of the frames at
    the sampled indices. *)
Lemma Forall_select_sampled {A : Type} (P : A -> Prop) (stride : Z)
    (l : list A) :
  (1 <= stride)%Z ->
  Forall P (select (Z.to_nat stride) 0 l) <->
  (forall i x, In i (sampled_indices (List.length l) stride) ->
               nth_error l i = Some x -> P x).
Proof.
  intro Hs. pose proof (select_sampled l Hs) as H. split.
  - intros HP i x Hi Hx.
    destruct (Forall2_In_l _ H Hi) as (y & Hy & Hiy).
    assert (x = y) by congruence. subst y.
    exact (proj1 (Forall_forall _ _) HP x Hy).
  - intro HP. apply Forall_forall. intros x Hx.
    destruct (Forall2_In_r _ H Hx) as (i & Hi & Hix).
    exact (HP i x Hi Hix).
Qed.

(** The stride computation failing ends the cell before any frame is read. *)
Lemma extract_frames_stride_error (Mat : Type)
    (imencode : Mat -> option (list byte))
    (file : option (VideoFile Mat)) (target_fps : Q) (e : exception) :
  frame_skip (reported_fps file) target_fps = Raise e ->
  extract_frames imencode file target_fps = (Raise e, VideoCapture_new file).
Proof.
  intro Hskip. unfold extract_frames, sampler.
  unfold bind at 1. cbn [video_get_fps].
  unfold bind at 1. unfold lift at 1.
  replace (if opened (VideoCapture_new file)
           then CAP_PROP_FPS (VideoCapture_new file) else 0%Q)
    with (reported_fps file) by (destruct file; reflexivity).
  now rewrite Hskip.
Qed.

(** X1. Once line 84 has given a stride, the cell ends normally exactly when
    the codec accepts every frame at a multiple of the stride; frames at
    other positions never reach the codec.  When it does not end normally
    the exception is the codec's. *)
Theorem sampler_succeeds_iff_sampled_encode (Mat : Type)
    (imencode : Mat -> option (list byte))
    (file : option (VideoFile Mat)) (target_fps : Q) (stride : Z) :
  frame_skip (reported_fps file) target_fps = Ok stride ->
  ((exists frames, base64Frames_of imencode file target_fps = Ok frames) <->
   (forall i frame,
       In i (sampled_indices (List.length (native_frames file)) stride) ->
       nth_error (native_frames file) i = Some frame ->
       imencode frame <> None)) /\
  (forall e, base64Frames_of imencode file target_fps = Raise e ->
             e = cv2_error).
Proof.
  intro Hskip. pose proof (frame_skip_ok_ge_1 _ _ Hskip) as Hs.
  pose proof (extract_frames_encode_all imencode file _ Hskip) as Hrun.
  rewrite <- (Forall_select_sampled _ _ Hs), <- encode_all_ok_iff.
  unfold base64Frames_of.
  destruct (encode_all imencode _) as [strs|e0] eqn:E.
  - rewrite Hrun. cbn [fst]. split.
    + split; intros _; now eexists.
    + intros e He. discriminate He.
  - rewrite Hrun. split.
    + split; intros [x Hx]; discriminate Hx.
    + intros e He. inversion He; subst. exact (encode_all_error _ _ E).
Qed.

Lemma sampler_succeeds_iff_sampled_encode_witness :
  frame_skip (reported_fps gap_file) 1 = Ok 2%Z /\
  ((exists frames, base64Frames_of toy_imencode gap_file 1 = Ok frames) <->
   (forall i frame,
       In i (sampled_indices (List.length (native_frames gap_file)) 2) ->
       nth_error (native_frames gap_file) i = Some frame ->
       toy_imencode frame <> None)) /\
  (forall e, base64Frames_of toy_imencode gap_file 1 = Raise e ->
             e = cv2_error).
Proof.
  split; [reflexivity|].
  apply (@sampler_succeeds_iff_sampled_encode _ toy_imencode gap_file 1 2).
  reflexivity.
Defined.

(** The refused frame sits between two sampled ones: the run succeeds. *)
Example gap_file_run :
  base64Frames_of toy_imencode gap_file 1 = Ok ["AQ=="; "Ag=="]%string.
Proof. reflexivity. Qed.

(** X2. Whenever the cell ends normally, [frame_count] is the number of
    frames of the source, no frame is left unread, and the handle has been
    released once and is closed. *)
Theorem normal_exit_counts_every_frame (Mat : Type)
    (imencode : Mat -> option (list byte))
    (file : option (VideoFile Mat)) (target_fps : Q)
    (base64Frames : list string) :
  base64Frames_of imencode file target_fps = Ok base64Frames ->
  extract_frames imencode file target_fps =
  (Ok (base64Frames, Z.of_nat (List.length (native_frames file))),
   mkVideoCapture false (reported_fps file) [] 1).
Proof.
  intro Hok. unfold base64Frames_of in Hok.
  destruct (frame_skip (reported_fps file) target_fps) as [stride|e] eqn:Hskip.
  - pose proof (extract_frames_encode_all imencode file _ Hskip) as Hrun.
    destruct (encode_all imencode _) as [strs|e0].
    + rewrite Hrun in Hok |- *. cbn [fst] in Hok. congruence.
    + rewrite Hrun in Hok. discriminate Hok.
  - rewrite (extract_frames_stride_error imencode file _ Hskip) in Hok.
    discriminate Hok.
Qed.

Lemma normal_exit_counts_every_frame_witness :
  base64Frames_of toy_imencode gap_file 1 = Ok ["AQ=="; "Ag=="]%string /\
  extract_frames toy_imencode gap_file 1 =
  (Ok (["AQ=="; "Ag=="]%string,
       Z.of_nat (List.length (native_frames gap_file))),
   mkVideoCapture false (reported_fps gap_file) [] 1).
Proof.
  split; [reflexivity|].
  apply (@normal_exit_counts_every_frame _ toy_imencode gap_file 1).
  reflexivity.
Defined.

(** X3. After a normal end of the cell, frame 0 of a source that has frames
    is the first string of [base64Frames]; so [base64Frames] is empty
    exactly when the source has no frame, and that is exactly when the last
    line of the cost cell raises. *)
Theorem first_frame_always_sampled (Mat : Type)
    (imencode : Mat -> option (list byte))
    (file : option (VideoFile Mat)) (target_fps : Q)
    (base64Frames : list string) :
  base64Frames_of imencode file target_fps = Ok base64Frames ->
  (forall frame rest,
      native_frames file = frame :: rest ->
      exists b64 more,
        base64Frames = b64 :: more /\ encode_frame imencode frame = Ok b64) /\
  (base64Frames = [] <-> native_frames file = []) /\
  (forall input_tokens output_tokens,
      (exists e,
          cost_report input_tokens output_tokens base64Frames = Raise e) <->
      native_frames file = []).
Proof.
  intro Hok.
  assert (Hfirst : forall frame rest,
      native_frames file = frame :: rest ->
      exists b64 more,
        base64Frames = b64 :: more /\ encode_frame imencode frame = Ok b64).
  { intros frame rest Hnat. unfold base64Frames_of in Hok.
    destruct (frame_skip (reported_fps file) target_fps)
      as [stride|e] eqn:Hskip.
    - pose proof (extract_frames_encode_all imencode file _ Hskip) as Hrun.
      rewrite Hnat in Hrun. cbn [select] in Hrun.
      rewrite Nat.Div0.mod_0_l in Hrun. cbn [Nat.eqb encode_all] in Hrun.
      destruct (encode_frame imencode frame) as [b64|e0].
      + destruct (encode_all imencode _) as [more|e1].
        * rewrite Hrun in Hok. cbn [fst] in Hok. inversion Hok; subst.
          now exists b64, more.
        * rewrite Hrun in Hok. discriminate Hok.
      + rewrite Hrun in Hok. discriminate Hok.
    - rewrite (extract_frames_stride_error imencode file _ Hskip) in Hok.
      discriminate Hok. }
  assert (Hempty : base64Frames = [] <-> native_frames file = []).
  { split.
    - intro E. destruct (native_frames file) as [|f r] eqn:Hnat;
        [reflexivity|].
      destruct (Hfirst f r eq_refl) as (b & more & Hb & _). congruence.
    - intro E. unfold base64Frames_of in Hok.
      destruct (frame_skip (reported_fps file) target_fps)
        as [stride|e] eqn:Hskip.
      + pose proof (extract_frames_encode_all imencode file _ Hskip) as H.
        rewrite E in H. cbn [select encode_all] in H.
        rewrite H in Hok. cbn [fst] in Hok. congruence.
      + rewrite (extract_frames_stride_error imencode file _ Hskip) in Hok.
        discriminate Hok. }
  split; [exact Hfirst|]. split; [exact Hempty|].
  intros i o. rewrite <- Hempty. split.
  - intros [e He]. destruct base64Frames as [|f r]; [reflexivity|].
    rewrite cost_report_nonempty in He by discriminate. discriminate He.
  - intros ->. exists ZeroDivisionError. apply cost_report_empty.
Qed.

Lemma first_frame_always_sampled_witness :
  base64Frames_of toy_imencode gap_file 1 = Ok ["AQ=="; "Ag=="]%string /\
  (forall frame rest,
      native_frames gap_file = frame :: rest ->
      exists b64 more,
        ["AQ=="; "Ag=="]%string = b64 :: more /\
        encode_frame toy_imencode frame = Ok b64) /\
  (["AQ=="; "Ag=="]%string = [] <-> native_frames gap_file = []) /\
  (forall input_tokens output_tokens,
      (exists e,
          cost_report input_tokens output_tokens ["AQ=="; "Ag=="]%string =
          Raise e) <->
      native_frames gap_file = []).
Proof.
  split; [reflexivity|].
  apply (@first_frame_always_sampled _ toy_imencode gap_file 1).
  reflexivity.
Defined.

(** ** The stride and the rate actually sampled *)












(** X8. With a target rate of zero the cell raises [ZeroDivisionError] at
    line 84, whatever the source: no frame has been read and the handle is
    left as [cv2.VideoCapture] made it, not released. *)
Theorem zero_target_raises_before_reading (Mat : Type)
    (imencode : Mat -> option (list byte))
    (file : option (VideoFile Mat)) (target_fps : Q) :
  (target_fps == 0)%Q ->
  extract_frames imencode file target_fps =
  (Raise ZeroDivisionError, VideoCapture_new file).
Proof.
  intro H0. unfold extract_frames, sampler.
  unfold bind at 1. cbn [video_get_fps].
  unfold bind at 1. unfold lift at 1.
  unfold frame_skip, Py.floordiv.
  now rewrite (Qeq_eq_bool _ _ H0).
Qed.

Lemma zero_target_raises_before_reading_witness :
  (0 == 0)%Q /\
  extract_frames toy_imencode demo_file 0 =
  (Raise ZeroDivisionError, VideoCapture_new demo_file).
Proof.
  split; [reflexivity|].
  apply (@zero_target_raises_before_reading _ toy_imencode demo_file 0).
  reflexivity.
Defined.

(** X9. A source that cannot be opened raises nothing in the sampler: for
    every target rate other than zero the cell ends normally with no string,
    a frame count of 0, and [release()] called once. *)
Theorem unopened_source_yields_no_frame (Mat : Type)
    (imencode : Mat -> option (list byte)) (target_fps : Q) :
  ~ (target_fps == 0)%Q ->
  extract_frames imencode None target_fps =
  (Ok ([], 0%Z), mkVideoCapture false 0 [] 1).
Proof.
  intro Hne.
  destruct (frame_skip 0 target_fps) as [stride|e] eqn:Hskip.
  - exact (extract_frames_encode_all imencode None target_fps Hskip).
  - exfalso. apply Hne.
    apply (frame_skip_raises_iff 0 target_fps). now exists e.
Qed.

Lemma unopened_source_yields_no_frame_witness :
  ~ (1 == 0)%Q /\
  extract_frames toy_imencode None 1 =
  (Ok ([], 0%Z), mkVideoCapture false 0 [] 1).
Proof.
  split; [discriminate|].
  apply (@unopened_source_yields_no_frame _ toy_imencode 1). discriminate.
Defined.

(** ** From the request back to the frames *)

Lemma Forall2_compose {A B C : Type} (R1 : A -> B -> Prop)
    (R2 : B -> C -> Prop) l1 l2 l3 :
  Forall2 R1 l1 l2 -> Forall2 R2 l2 l3 ->
  Forall2 (fun a c => exists b, R1 a b /\ R2 b c) l1 l3.
Proof.
  intro H. revert l3. induction H as [|a b l1 l2 Hab _ IH]; intros l3 H23.
  - inversion H23. constructor.
  - inversion H23 as [|? c ? l3' Hbc Hrest]; subst.
    constructor; [now exists b | now apply IH].
Qed.

Lemma Forall2_map_right {A B C : Type} (R : A -> C -> Prop) (g : B -> C)
    l1 l2 :
  Forall2 (fun a b => R a (g b)) l1 l2 -> Forall2 R l1 (map g l2).
Proof.
  induction 1; cbn [map]; constructor; assumption.
Qed.

Lemma encode_frame_ok (Mat : Type) (imencode : Mat -> option (list byte))
    (frame : Mat) (b64 : string) :
  encode_frame imencode frame = Ok b64 ->
  exists buffer,
    imencode frame = Some buffer /\ b64 = Base64.b64encode buffer.
Proof.
  unfold encode_frame. destruct (imencode frame) as [buffer|]; [|discriminate].
  intro H. inversion H. now exists buffer.
Qed.

(** X10. After a normal end of the sampler, decoding the k-th image
    reference of the request gives the JPEG buffer the codec produced for
    native frame k*stride. *)
Theorem request_images_decode_to_sampled_frames (Mat : Type)
    (imencode : Mat -> option (list byte))
    (file : option (VideoFile Mat)) (target_fps : Q) (stride : Z)
    (base64Frames : list string) (detail : string) :
  frame_skip (reported_fps file) target_fps = Ok stride ->
  base64Frames_of imencode file target_fps = Ok base64Frames ->
  Forall2 (fun i ref =>
             exists frame buffer,
               nth_error (native_frames file) i = Some frame /\
               imencode frame = Some buffer /\
               decode_data_uri (url ref) = Some buffer)
          (sampled_indices (List.length (native_frames file)) stride)
          (image_refs (messages detail base64Frames)).
Proof.
  intros Hskip Hok. pose proof (frame_skip_ok_ge_1 _ _ Hskip) as Hs.
  pose proof (extract_frames_encode_all imencode file _ Hskip) as Hrun.
  unfold base64Frames_of in Hok.
  destruct (encode_all imencode _) as [strs|e] eqn:E;
    rewrite Hrun in Hok; [|discriminate Hok].
  cbn [fst] in Hok. inversion Hok; subst strs. clear Hok Hrun.
  rewrite image_refs_messages. apply Forall2_map_right. cbn [url].
  eapply Forall2_impl;
    [|exact (Forall2_compose (select_sampled (native_frames file) Hs)
               (encode_all_Forall2 _ _ E))].
  intros i b64 (frame & Hi & Henc).
  destruct (encode_frame_ok _ _ Henc) as (buffer & Hbuf & ->).
  exists frame, buffer. repeat split; try assumption.
  rewrite decode_data_uri_data_uri.
  apply Base64Facts.b64decode_b64encode.
Qed.

Lemma request_images_decode_to_sampled_frames_witness :
  frame_skip (reported_fps gap_file) 1 = Ok 2%Z /\
  base64Frames_of toy_imencode gap_file 1 = Ok ["AQ=="; "Ag=="]%string /\
  Forall2 (fun i ref =>
             exists frame buffer,
               nth_error (native_frames gap_file) i = Some frame /\
               toy_imencode frame = Some buffer /\
               decode_data_uri (url ref) = Some buffer)
          (sampled_indices (List.length (native_frames gap_file)) 2)
          (image_refs (messages "low" ["AQ=="; "Ag=="]%string)).
Proof.
  split; [reflexivity|]. split; [reflexivity|].
  apply (@request_images_decode_to_sampled_frames
           _ toy_imencode gap_file 1 2 ["AQ=="; "Ag=="]%string "low");
    reflexivity.
Defined.

(** ** Size and alphabet of the encoded strings *)

Lemma length_data_uri (frame : string) :
  String.length (data_uri frame) = (23 + String.length frame)%nat.
Proof. reflexivity. Qed.

(** X11. The base64 string of an n-byte buffer has 4 * ceil(n / 3)
    characters, and its data URI 23 more. *)
Theorem b64encode_length (buffer : list byte) :
  String.length (Base64.b64encode buffer) =
    (4 * ((List.length buffer + 2) / 3))%nat /\
  String.length (data_uri (Base64.b64encode buffer)) =
    (23 + 4 * ((List.length buffer + 2) / 3))%nat.
Proof.
  assert (H : String.length (Base64.b64encode buffer) =
              (4 * ((List.length buffer + 2) / 3))%nat).
  { induction buffer as [|a|a b|a b c rest IH] using list_ind3;
      try reflexivity.
    cbn [Base64.b64encode]. cbv zeta. unfold Base64.str4.
    cbn [String.length List.length]. rewrite IH.
    replace (S (S (S (List.length rest))) + 2)%nat
      with (List.length rest + 2 + 1 * 3)%nat by lia.
    rewrite Nat.div_add by discriminate. lia. }
  split; [exact H|]. now rewrite length_data_uri, H.
Qed.

Lemma b64char_ascii_checked :
  forallb (fun n => (nat_of_ascii (Base64.b64char (N.of_nat n)) <? 128)%nat)
          (seq 0 64) = true.
Proof. vm_compute. reflexivity. Qed.

Lemma b64char_in_alphabet (i : N) :
  (i < 64)%N ->
  (nat_of_ascii (Base64.b64char i) < 128)%nat /\
  Base64.b64index (Base64.b64char i) = Some i.
Proof.
  intro Hi. split; [|now apply Base64Facts.b64index_b64char].
  pose proof (proj1 (forallb_forall _ _) b64char_ascii_checked
                (N.to_nat i)) as H.
  cbv beta in H. rewrite N2Nat.id in H. apply Nat.ltb_lt, H, in_seq. lia.
Qed.

(** X12. Every character of a base64 string the sampler emits is an ASCII
    character: one of the 64 of the alphabet, or the padding character. *)
Theorem b64encode_is_ascii (buffer : list byte) (c : ascii) :
  In c (list_ascii_of_string (Base64.b64encode buffer)) ->
  (nat_of_ascii c < 128)%nat /\
  (c = Base64.pad \/ exists i, (i < 64)%N /\ Base64.b64index c = Some i).
Proof.
  assert (Hpad : (nat_of_ascii Base64.pad < 128)%nat /\
                 (Base64.pad = Base64.pad \/
                  exists i, (i < 64)%N /\
                            Base64.b64index Base64.pad = Some i)).
  { split; [vm_compute; lia | now left]. }
  assert (Hchar : forall k n, (n < 16777216)%N ->
            (nat_of_ascii (Base64.b64char (Base64.sextet k n)) < 128)%nat /\
            (Base64.b64char (Base64.sextet k n) = Base64.pad \/
             exists i, (i < 64)%N /\
               Base64.b64index (Base64.b64char (Base64.sextet k n)) = Some i)).
  { intros k n Hn. pose proof (Base64Facts.sextet_bound k Hn) as Hk.
    destruct (b64char_in_alphabet Hk) as [H1 H2].
    split; [exact H1|]. right. exists (Base64.sextet k n). now split. }
  induction buffer as [|a|a b|a b d rest IH] using list_ind3;
    cbn [Base64.b64encode]; cbv zeta; unfold Base64.str4;
    cbn [list_ascii_of_string In].
  - contradiction.
  - pose proof (Base64Facts.group24_bound a x00 x00) as Hn.
    change (Byte.to_N x00) with 0%N in Hn.
    intros [<-|[<-|[<-|[<-|[]]]]]; auto.
  - pose proof (Base64Facts.group24_bound a b x00) as Hn.
    change (Byte.to_N x00) with 0%N in Hn.
    intros [<-|[<-|[<-|[<-|[]]]]]; auto.
  - pose proof (Base64Facts.group24_bound a b d) as Hn.
    intros [<-|[<-|[<-|[<-|Hin]]]]; auto.
Qed.

Lemma b64encode_is_ascii_witness :
  In "Q"%char (list_ascii_of_string (Base64.b64encode [x01]%byte)) /\
  (nat_of_ascii "Q" < 128)%nat /\
  ("Q"%char = Base64.pad \/
   exists i, (i < 64)%N /\ Base64.b64index "Q" = Some i).
Proof.
  assert (H : In "Q"%char
                (list_ascii_of_string (Base64.b64encode [x01]%byte)))
    by (vm_compute; auto).
  split; [exact H|]. exact (@b64encode_is_ascii [x01]%byte "Q"%char H).
Defined.

(** X13. Different buffers never give the same data URI. *)
Theorem data_uri_injective (b1 b2 : list byte) :
  data_uri (Base64.b64encode b1) = data_uri (Base64.b64encode b2) ->
  b1 = b2.
Proof.
  intro H. apply (f_equal decode_data_uri) in H.
  rewrite !decode_data_uri_data_uri in H.
  rewrite !Base64Facts.b64decode_b64encode in H. congruence.
Qed.

Lemma data_uri_injective_witness :
  data_uri (Base64.b64encode [x01; x02]%byte) =
  data_uri (Base64.b64encode [x01; x02]%byte) /\
  [x01; x02]%byte = [x01; x02]%byte.
Proof.
  split; [reflexivity|].
  apply (@data_uri_injective [x01; x02]%byte [x01; x02]%byte). reflexivity.
Defined.

(** ** The cost reporter: monotonicity and prices *)

Lemma cost_report_total (input_tokens output_tokens : Z)
    (frames : list string) (c : CostBreakdown) :
  cost_report input_tokens output_tokens frames = Ok c ->
  frames <> [] /\
  (total_cost c ==
   (2 * inject_Z input_tokens + 8 * inject_Z output_tokens) / 1000000)%Q /\
  (cost_per_frame c ==
   total_cost c / inject_Z (Z.of_nat (List.length frames)))%Q.
Proof.
  intro H. destruct frames as [|f r].
  - rewrite cost_report_empty in H. discriminate H.
  - rewrite cost_report_nonempty in H by discriminate. cbv zeta in H.
    inversion H; subst; clear H. cbn [total_cost cost_per_frame].
    split; [discriminate|]. split; [|reflexivity].
    unfold P_in, P_out. field.
Qed.

Lemma frame_count_positive (frames : list string) :
  frames <> [] -> (0 < inject_Z (Z.of_nat (List.length frames)))%Q.
Proof.
  intro H. destruct frames as [|f r]; [contradiction|].
  change 0%Q with (inject_Z 0). rewrite <- Zlt_Qlt. cbn [List.length]. lia.
Qed.

(** X14. For the same frames, more tokens never cost less: the total cost
    and the cost per frame are monotone in both token counts, and are not
    negative when the counts are not. *)
Theorem cost_is_monotone (i1 o1 i2 o2 : Z) (frames : list string)
    (c1 c2 : CostBreakdown) :
  (0 <= i1 <= i2)%Z -> (0 <= o1 <= o2)%Z ->
  cost_report i1 o1 frames = Ok c1 ->
  cost_report i2 o2 frames = Ok c2 ->
  (0 <= total_cost c1 /\ total_cost c1 <= total_cost c2)%Q /\
  (0 <= cost_per_frame c1 /\ cost_per_frame c1 <= cost_per_frame c2)%Q.
Proof.
  intros Hi Ho H1 H2.
  destruct (cost_report_total _ _ _ H1) as (Hne & T1 & F1).
  destruct (cost_report_total _ _ _ H2) as (_ & T2 & F2).
  pose proof (frame_count_positive Hne) as Hn.
  assert (Hi1 : (0 <= inject_Z i1)%Q)
    by (change 0%Q with (inject_Z 0); rewrite <- Zle_Qle; lia).
  assert (Hi2 : (inject_Z i1 <= inject_Z i2)%Q) by (rewrite <- Zle_Qle; lia).
  assert (Ho1 : (0 <= inject_Z o1)%Q)
    by (change 0%Q with (inject_Z 0); rewrite <- Zle_Qle; lia).
  assert (Ho2 : (inject_Z o1 <= inject_Z o2)%Q) by (rewrite <- Zle_Qle; lia).
  assert (Ht1 : (0 <= total_cost c1)%Q).
  { rewrite T1. apply Qle_shift_div_l; [reflexivity|]. lra. }
  assert (Ht12 : (total_cost c1 <= total_cost c2)%Q).
  { rewrite T1, T2. apply Qle_shift_div_l; [reflexivity|].
    unfold Qdiv. rewrite <- Qmult_assoc.
    setoid_replace (/ 1000000 * 1000000)%Q with 1%Q by reflexivity. lra. }
  split; [split; assumption|]. rewrite F1, F2. split.
  - apply Qle_shift_div_l; [exact Hn|]. lra.
  - apply Qle_shift_div_l; [exact Hn|].
    unfold Qdiv. rewrite <- Qmult_assoc, (Qmult_comm (/ _)), Qmult_inv_r;
      [lra|]. intro E. rewrite E in Hn. discriminate Hn.
Qed.

Lemma cost_is_monotone_witness :
  (0 <= 5100 <= 6000)%Z /\ (0 <= 300 <= 300)%Z /\
  exists c1 c2,
    cost_report 5100 300 ["AQ=="]%string = Ok c1 /\
    cost_report 6000 300 ["AQ=="]%string = Ok c2 /\
    (0 <= total_cost c1 /\ total_cost c1 <= total_cost c2)%Q /\
    (0 <= cost_per_frame c1 /\ cost_per_frame c1 <= cost_per_frame c2)%Q.
Proof.
  split; [lia|]. split; [lia|].
  eexists _, _. split; [reflexivity|]. split; [reflexivity|].
  apply (@cost_is_monotone 5100 300 6000 300 ["AQ=="]%string);
    first [lia | reflexivity].
Defined.

(** ** The token lines *)

Example token_usage_readme :
  token_usage 5100 300 =
  ["Token Usage:"; "  Input tokens: 5,100"; "  Output tokens: 300";
   "  Total tokens: 5,400"]%string.
Proof. reflexivity. Qed.

Example format_thousands_samples :
  map format_thousands [0; 7; 999; 1000; 123456; 1234567; -1234]%Z =
  ["0"; "7"; "999"; "1,000"; "123,456"; "1,234,567"; "-1,234"]%string.
Proof. reflexivity. Qed.

(** Dropping the commas of a grouped digit list gives the digits back. *)
Lemma filter_group3 (digits : list ascii) :
  Forall (fun c => not_comma c = true) digits ->
  filter not_comma (group3 digits) = digits.
Proof.
  induction digits as [|a|a b|a b c rest IH] using list_ind3; intro H.
  - reflexivity.
  - inversion H as [|? ? Ha _]; subst. cbn [group3 filter]. now rewrite Ha.
  - inversion H as [|? ? Ha H']; subst. inversion H' as [|? ? Hb _]; subst.
    cbn [group3 filter]. now rewrite Ha, Hb.
  - inversion H as [|? ? Ha H1]; subst. inversion H1 as [|? ? Hb H2]; subst.
    inversion H2 as [|? ? Hc H3]; subst.
    cbn [group3]. destruct rest as [|d rest].
    + cbn [filter]. now rewrite Ha, Hb, Hc.
    + cbn [filter]. rewrite Ha, Hb, Hc.
      change (not_comma comma) with false. cbv iota.
      now rewrite (IH H3).
Qed.

Lemma length_group3 (digits : list ascii) :
  List.length (group3 digits) =
  (List.length digits + (List.length digits - 1) / 3)%nat.
Proof.
  induction digits as [|a|a b|a b c rest IH] using list_ind3;
    try reflexivity.
  cbn [group3]. destruct rest as [|d rest]; [reflexivity|].
  cbn [List.length] in *. rewrite IH.
  replace (S (S (S (S (List.length rest)))) - 1)%nat
    with (List.length rest + 1 * 3)%nat by lia.
  rewrite Nat.div_add by discriminate.
  replace (S (List.length rest) - 1)%nat with (List.length rest) by lia.
  lia.
Qed.

Lemma digits_not_comma (d : Decimal.uint) :
  Forall (fun c => not_comma c = true)
         (list_ascii_of_string (NilEmpty.string_of_uint d)).
Proof.
  induction d; cbn [NilEmpty.string_of_uint list_ascii_of_string];
    constructor; (reflexivity || assumption).
Qed.

Lemma decimal_not_comma (n : N) :
  Forall (fun c => not_comma c = true) (list_ascii_of_string (decimal n)).
Proof.
  unfold decimal, NilZero.string_of_uint.
  destruct (N.to_uint n); try apply digits_not_comma.
  repeat constructor.
Qed.

Lemma to_uint_nonnil (n : N) : N.to_uint n <> Decimal.Nil.
Proof.
  destruct n as [|p]; [discriminate|]. apply Unsigned.to_uint_nonnil.
Qed.

Lemma length_string_of_list_ascii (l : list ascii) :
  String.length (string_of_list_ascii l) = List.length l.
Proof. induction l as [|a l IH]; cbn; [reflexivity | now rewrite IH]. Qed.

Lemma length_list_ascii_of_string (s : string) :
  List.length (list_ascii_of_string s) = String.length s.
Proof. induction s as [|a s IH]; cbn; [reflexivity | now rewrite IH]. Qed.

(** X16. A token count that is not negative is printed so that it can be
    read back: dropping the commas and reading the digits gives the count.
    The printed number has one comma for every full group of three digits
    that has a digit before it. *)
Theorem format_thousands_round_trip (n : Z) :
  (0 <= n)%Z ->
  read_thousands (format_thousands n) = Some (Z.to_N n) /\
  String.length (format_thousands n) =
    (String.length (decimal (Z.to_N n)) +
     (String.length (decimal (Z.to_N n)) - 1) / 3)%nat.
Proof.
  intro Hn. unfold format_thousands.
  replace (n <? 0)%Z with false by (symmetry; apply Z.ltb_ge; exact Hn).
  replace (Z.abs_N n) with (Z.to_N n) by (destruct n; [reflexivity..|lia]).
  cbv zeta. split.
  - unfold read_thousands.
    rewrite list_ascii_of_string_of_list_ascii, filter_rev, filter_group3.
    + rewrite rev_involutive, string_of_list_ascii_of_string.
      unfold decimal. rewrite NilZero.usu by apply to_uint_nonnil.
      cbn [option_map]. now rewrite DecimalN.Unsigned.of_to.
    + apply Forall_rev, decimal_not_comma.
  - rewrite length_string_of_list_ascii, length_rev, length_group3,
      length_rev, length_list_ascii_of_string. reflexivity.
Qed.

Lemma format_thousands_round_trip_witness :
  (0 <= 1234567)%Z /\
  read_thousands (format_thousands 1234567) = Some (Z.to_N 1234567) /\
  String.length (format_thousands 1234567) =
    (String.length (decimal (Z.to_N 1234567)) +
     (String.length (decimal (Z.to_N 1234567)) - 1) / 3)%nat.
Proof.
  split; [lia|]. apply (@format_thousands_round_trip 1234567). lia.
Defined.

(** * Line 84 in binary64 *)

#[local] Set Warnings "-inexact-float".

(** The constants are the doubles they are named after. *)
Example float64_constants :
  map FloatOps.Prim2SF
      [30; 29.97; 0.1; 0.5; 1; 2; 3; 1e17; 5e-324]%float =
  [Float64.f30; Float64.f2997; Float64.f0_1; Float64.f0_5; Float64.one;
   Float64.f2; Float64.f3; Float64.f1e17; Float64.f_min_subnormal] /\
  forallb (valid_binary Float64.prec Float64.emax)
    [Float64.f30; Float64.f2997; Float64.f0_1; Float64.f0_5; Float64.one;
     Float64.f2; Float64.f3; Float64.f1e17; Float64.f_min_subnormal] = true.
Proof. split; vm_compute; reflexivity. Qed.

(** Values of [fmod], [floor] and [//] on doubles, signs of zero
    included. *)
Example float64_fmod_values :
  map (fun xy => Float64.fmod (FloatOps.Prim2SF (fst xy))
                              (FloatOps.Prim2SF (snd xy)))
      [(7.5, 2); (-7.5, 2); (7.5, -2); (-4, 2); (30, 0.1); (1, 3);
       (5e-324, 3); (1e308, 5e-324); (infinity, 1); (1, infinity)]%float =
  map FloatOps.Prim2SF
      [1.5; -1.5; 1.5; -0; 0.09999999999999834; 1; 5e-324; 0; nan; 1]%float.
Proof. vm_compute. reflexivity. Qed.

Example float64_floor_values :
  map (fun x => Float64.floor (FloatOps.Prim2SF x))
      [2.5; -2.5; 0.5; -0.5; -0; 3; 1e300; -5e-324; infinity]%float =
  map FloatOps.Prim2SF [2; -3; 0; -1; -0; 3; 1e300; -1; infinity]%float.
Proof. vm_compute. reflexivity. Qed.

Example float64_floordiv_values :
  map (fun xy => Float64.floordiv (FloatOps.Prim2SF (fst xy))
                                  (FloatOps.Prim2SF (snd xy)))
      [(30, 1); (29.97, 1); (30, 0.5); (30, 2); (30, 0.1); (-7.5, 2);
       (7.5, -2); (-1, 3); (0, -3); (1e17, 3); (30, 5e-324);
       (infinity, 1); (1, infinity); (-1, infinity)]%float =
  map (fun q => Ok (FloatOps.Prim2SF q))
      [30; 29; 60; 15; 299; -4; -4; -1; -0; 33333333333333332; infinity;
       nan; 0; -1]%float /\
  Float64.floordiv Float64.f30 (S754_zero true) = Raise ZeroDivisionError.
Proof. split; vm_compute; reflexivity. Qed.

(** The specification's operations are those of the machine's doubles on
    these inputs. *)
Example float64_matches_primitive :
  map (fun xy =>
         (FloatOps.SF2Prim (Float64.div (FloatOps.Prim2SF (fst xy))
                                        (FloatOps.Prim2SF (snd xy))),
          FloatOps.SF2Prim (Float64.sub (FloatOps.Prim2SF (fst xy))
                                        (FloatOps.Prim2SF (snd xy)))))
      [(30, 0.1); (29.97, 1); (1e17, 3); (30, 5e-324)]%float =
  map (fun xy => (PrimFloat.div (fst xy) (snd xy),
                  PrimFloat.sub (fst xy) (snd xy)))
      [(30, 0.1); (29.97, 1); (1e17, 3); (30, 5e-324)]%float.
Proof. vm_compute. reflexivity. Qed.

(** Strides of common frame rates. *)
Example float64_strides :
  map (fun xy => Float64.frame_skip (FloatOps.Prim2SF (fst xy))
                                    (FloatOps.Prim2SF (snd xy)))
      [(30, 1); (29.97, 1); (23.976, 1); (25, 2); (59.94, 0.5); (24, 60);
       (0, 1); (-1, 1); (30, -1)]%float =
  map Ok [30; 29; 23; 12; 119; 1; 1; 1; 1]%Z.
Proof. vm_compute. reflexivity. Qed.

Module Float64Facts.

Import Float64.

(** *** Powers of two *)


Lemma pow2_pos (e : Z) : (0 < 2 ^ e)%Q.
Proof. apply Qpower_0_lt. reflexivity. Qed.




(** *** Bit lengths *)





(** *** Rounding an integer that fits *)




(** *** A value minus itself *)


(** *** What a valid value looks like *)


(** *** The remainder *)


(** *** Values that are integers *)



Lemma to_Q_zero_inv (x : spec_float) :
  is_finite x = true -> (to_Q x == 0)%Q -> exists s, x = S754_zero s.
Proof.
  destruct x as [s|s| |s m e]; try discriminate; intros _ H.
  - now exists s.
  - exfalso. cbn [to_Q] in H.
    pose proof (pow2_pos e) as Hp.
    assert (Hm : ~ (inject_Z (cond_Zopp s (Z.pos m)) == 0)%Q).
    { intro E. change 0%Q with (inject_Z 0) in E.
      apply (proj1 (inject_Z_injective _ _)) in E.
      destruct s; discriminate E. }
    apply Hm. apply Qmult_integral in H. destruct H as [H|H]; [exact H|].
    rewrite H in Hp. discriminate Hp.
Qed.


(** A rate of zero, and the values that are not numbers. *)
Lemma frame_skip_zero_nan_inf (target_fps : spec_float) (s : bool) :
  ltb zero target_fps = true ->
  frame_skip (S754_zero s) target_fps = Ok 1%Z /\
  frame_skip S754_nan target_fps = Raise ValueError /\
  frame_skip (S754_infinity s) target_fps = Raise ValueError.
Proof.
  destruct target_fps as [t|t| |t m e]; try discriminate.
  - destruct t; [discriminate|]. intros _. destruct s; repeat split.
  - destruct t; [discriminate|]. intros _. destruct s; repeat split.
Qed.






End Float64Facts.

(** ** Claims on the stride *)




(** C8, as stated, fails: a native rate of 0.0 with target rate 1.0 raises
    nothing, the floor division gives 0.0 and the stride is 1 (in the
    rational model as on doubles); a NaN rate raises the [ValueError] of
    [int()], which is not a division error. *)
Lemma frame_skip_zero_fps_no_error :
  frame_skip 0 1 = Ok 1%Z /\
  ~ (exists e, frame_skip 0 1 = Raise e) /\
  Float64.frame_skip Float64.zero Float64.one = Ok 1%Z /\
  Float64.frame_skip S754_nan Float64.one = Raise ValueError.
Proof.
  split; [reflexivity|]. split; [|split; reflexivity].
  intros [e He]. discriminate He.
Qed.

(** C8, amended.  With a target rate above zero (finite or infinite), a
    native rate of zero raises nothing and gives stride 1; a native rate
    that is NaN or an infinity makes [int()] raise [ValueError], not a
    division error. *)
Theorem zero_rate_gives_stride_one (target_fps : spec_float) (s : bool) :
  Float64.ltb Float64.zero target_fps = true ->
  Float64.frame_skip (S754_zero s) target_fps = Ok 1%Z /\
  Float64.frame_skip S754_nan target_fps = Raise ValueError /\
  Float64.frame_skip (S754_infinity s) target_fps = Raise ValueError.
Proof. apply Float64Facts.frame_skip_zero_nan_inf. Qed.

Lemma zero_rate_gives_stride_one_witness :
  Float64.ltb Float64.zero Float64.one = true /\
  Float64.frame_skip (S754_zero false) Float64.one = Ok 1%Z /\
  Float64.frame_skip S754_nan Float64.one = Raise ValueError /\
  Float64.frame_skip (S754_infinity false) Float64.one = Raise ValueError.
Proof.
  split; [reflexivity|].
  apply (@zero_rate_gives_stride_one Float64.one false). reflexivity.
Defined.
